(** * Postfix daily summary: the log correlation and metrics engine

    A shallow embedding of [postfix_daily_summary.py]: the log source
    reader, the two passes of [main] over the log lines, the derived
    metrics, the trend engine, the alert evaluator and the history store.

    Modelling conventions.
    - A Python [str] is a [string] of 8-bit characters; non-ASCII text such
      as the arrows of the report is its UTF-8 encoding. Character classes
      ([\d], [\s], [str.lower]) have their ASCII meaning.
    - A Python [int] is a [Z]; a Python [float] is the rational [Q] it
      stands for. [float(s)] and the float literals round to the nearest
      binary64 number, ties to even, as CPython does; the sums and the
      quotients of floats are exact, so the rounding of the arithmetic is
      not modelled, and neither are the infinities. True division raises
      [ZeroDivisionError] on a zero divisor, as in Python.
    - A [dict] or [Counter] is a [gmap]; where the source iterates over a
      dict the order of the iteration is not modelled.
    - Exceptions are values of [exn] threaded through the [result] monad.
    - [datetime.now()] is an input of the run: one calendar date, the run
      being assumed not to cross midnight. *)

From Stdlib Require Import ZArith QArith Qminmax Lqa Lia Bool Ascii String List.
From stdpp Require Import gmap strings list fin_maps sorting.

Import ListNotations.
Local Open Scope string_scope.
Local Open Scope Z_scope.

(** ** Python strings *)

Module PyStr.

(** [needle in s] *)
Fixpoint contains (needle s : string) : bool :=
  String.prefix needle s ||
  match s with
  | EmptyString => false
  | String _ s' => contains needle s'
  end.

(** [s.startswith(p)] *)
Definition startswith (s p : string) : bool := String.prefix p s.

Definition is_upper (c : ascii) : bool :=
  (65 <=? nat_of_ascii c)%nat && (nat_of_ascii c <=? 90)%nat.

Definition is_lower (c : ascii) : bool :=
  (97 <=? nat_of_ascii c)%nat && (nat_of_ascii c <=? 122)%nat.

Definition is_digit (c : ascii) : bool :=
  (48 <=? nat_of_ascii c)%nat && (nat_of_ascii c <=? 57)%nat.

Definition is_alnum (c : ascii) : bool :=
  is_upper c || is_lower c || is_digit c.

(** [\s] and [str.isspace]: space, [\t], [\n], [\v], [\f], [\r] and the
    four separators [\x1c] to [\x1f] *)
Definition is_space (c : ascii) : bool :=
  (nat_of_ascii c =? 32)%nat ||
  ((9 <=? nat_of_ascii c)%nat && (nat_of_ascii c <=? 13)%nat) ||
  ((28 <=? nat_of_ascii c)%nat && (nat_of_ascii c <=? 31)%nat).

Definition lower_char (c : ascii) : ascii :=
  if is_upper c then ascii_of_nat (nat_of_ascii c + 32) else c.

(** [s.lower()] *)
Fixpoint lower (s : string) : string :=
  match s with
  | EmptyString => EmptyString
  | String c s' => String (lower_char c) (lower s')
  end.

Fixpoint lstrip (s : string) : string :=
  match s with
  | EmptyString => EmptyString
  | String c s' => if is_space c then lstrip s' else s
  end.

Fixpoint rev_string (acc s : string) : string :=
  match s with
  | EmptyString => acc
  | String c s' => rev_string (String c acc) s'
  end.

(** [s.strip()] *)
Definition strip (s : string) : string :=
  rev_string "" (lstrip (rev_string "" (lstrip s))).

(** [s.split(sep)[-1]]: the text after the last occurrence of the
    one-character separator, the whole string when there is none. *)
Fixpoint after_last (sep : ascii) (s : string) : string :=
  match s with
  | EmptyString => EmptyString
  | String c s' =>
      if Ascii.eqb c sep
      then after_last sep s'
      else if contains (String sep "") s' then after_last sep s' else s
  end.

(** [int(s)] on a string of decimal digits *)
Definition digit_val (c : ascii) : Z := Z.of_nat (nat_of_ascii c) - 48.

Fixpoint int_acc (acc : Z) (s : string) : Z :=
  match s with
  | EmptyString => acc
  | String c s' => int_acc (10 * acc + digit_val c) s'
  end.

Definition int_of (s : string) : Z := int_acc 0 s.

(** The number a string matched by [\d+\.?\d*] writes: the digits before
    the point over one, plus the digits after it over a power of ten. *)
Fixpoint before_dot (s : string) : string :=
  match s with
  | EmptyString => EmptyString
  | String c s' => if Ascii.eqb c "."%char then EmptyString else String c (before_dot s')
  end.

Fixpoint after_dot (s : string) : string :=
  match s with
  | EmptyString => EmptyString
  | String c s' => if Ascii.eqb c "."%char then s' else after_dot s'
  end.

Definition decimal_of (s : string) : Q :=
  let frac := after_dot s in
  inject_Z (int_of (before_dot s))
  + inject_Z (int_of frac) / inject_Z (10 ^ Z.of_nat (String.length frac)).

(** The integer nearest to [n / d], the even one of the two when [n / d]
    is half-way, for [0 <= n] and [0 < d]. *)
Definition round_half_even (n d : Z) : Z :=
  let q := n / d in
  match 2 * (n mod d) ?= d with
  | Lt => q
  | Gt => q + 1
  | Eq => if Z.even q then q else q + 1
  end.

(** The binary64 number nearest to a number that is not negative: with
    [2 ^ e <= x < 2 ^ (e + 1)], the multiple of [2 ^ (e - 52)] nearest to
    [x], and of [2 ^ (-1074)] in the subnormal range. Above the largest
    binary64 number CPython gives [inf], which has no counterpart here:
    the number rounded to 53 bits stands for it, and like [inf] it is
    above every float the engine compares it with. *)
Definition binary64 (x : Q) : Q :=
  let n := Qnum x in
  let d := Zpos (Qden x) in
  if n <=? 0 then 0%Q
  else
    let e0 := Z.log2 n - Z.log2 d in
    let e := if (if 0 <=? e0 then d * 2 ^ e0 <=? n else d <=? n * 2 ^ (- e0))
             then e0 else e0 - 1 in
    let u := Z.max (e - 52) (-1074) in
    if 0 <=? u
    then inject_Z (round_half_even n (d * 2 ^ u) * 2 ^ u)
    else round_half_even (n * 2 ^ (- u)) d # Z.to_pos (2 ^ (- u)).

(** [float(s)] on a string matched by [\d+\.?\d*], and the float literal
    of the same text: the written number, correctly rounded. *)
Definition float_of (s : string) : Q := binary64 (decimal_of s).

End PyStr.

(** ** The regular expressions of the source

    The patterns of the source are sequences of single characters,
    character classes, greedy repetitions of a class and capture groups
    that are not nested. [Re] is a backtracking matcher for exactly this
    fragment, with the priorities of Python's [re]: leftmost start, and a
    greedy repetition gives characters back one at a time. *)

Module Re.
Local Open Scope list_scope.

Inductive item : Type :=
| One (p : ascii -> bool)          (* one character of a class *)
| Star (p : ascii -> bool)         (* [p*], greedy *)
| Opt (p : ascii -> bool)          (* [p?], greedy *)
| Open                             (* [(] *)
| Close.                           (* [)] *)

Definition pattern := list item.

(** Captures: the groups closed so far (latest first) and, inside a
    group, the characters it has consumed (latest first). *)
Record caps : Type := { closed : list string; current : option string }.

Definition no_caps : caps := {| closed := []; current := None |}.

Definition push (c : ascii) (k : caps) : caps :=
  {| closed := closed k;
     current := match current k with
                | Some g => Some (String c g)
                | None => None
                end |}.

Definition open_group (k : caps) : caps :=
  {| closed := closed k; current := Some EmptyString |}.

Definition close_group (k : caps) : caps :=
  {| closed := match current k with
               | Some g => PyStr.rev_string "" g :: closed k
               | None => closed k
               end;
     current := None |}.

Definition groups (k : caps) : list string := rev (closed k).

Section Star.
Variable p : ascii -> bool.
Variable rest : string -> caps -> option (list string).

Fixpoint star (s : string) (k : caps) : option (list string) :=
  match s with
  | String c s' =>
      if p c
      then match star s' (push c k) with
           | Some g => Some g
           | None => rest s k
           end
      else rest s k
  | EmptyString => rest s k
  end.
End Star.

(** The groups of a match of [pat] that starts at the head of [s]. *)
Fixpoint match_here (pat : pattern) : string -> caps -> option (list string) :=
  match pat with
  | [] => fun _ k => Some (groups k)
  | One p :: pat' => fun s k =>
      match s with
      | String c s' => if p c then match_here pat' s' (push c k) else None
      | EmptyString => None
      end
  | Star p :: pat' => star p (match_here pat')
  | Opt p :: pat' => fun s k =>
      match s with
      | String c s' =>
          if p c
          then match match_here pat' s' (push c k) with
               | Some g => Some g
               | None => match_here pat' s k
               end
          else match_here pat' s k
      | EmptyString => match_here pat' s k
      end
  | Open :: pat' => fun s k => match_here pat' s (open_group k)
  | Close :: pat' => fun s k => match_here pat' s (close_group k)
  end.

(** [re.match(pat, s)] *)
Definition rematch (pat : pattern) (s : string) : option (list string) :=
  match_here pat s no_caps.

(** [re.search(pat, s)] *)
Fixpoint search (pat : pattern) (s : string) : option (list string) :=
  match rematch pat s with
  | Some g => Some g
  | None =>
      match s with
      | EmptyString => None
      | String _ s' => search pat s'
      end
  end.

(** The first group of a search, for the patterns with one group. *)
Definition search1 (pat : pattern) (s : string) : option string :=
  match search pat s with
  | Some (g :: _) => Some g
  | _ => None
  end.

(** Pattern syntax. *)
Fixpoint lit (s : string) : pattern :=
  match s with
  | EmptyString => []
  | String c s' => One (Ascii.eqb c) :: lit s'
  end.

Definition plus (p : ascii -> bool) : pattern := [One p; Star p].
Definition group (pat : pattern) : pattern := Open :: pat ++ [Close].
Definition none_of (cs : string) (c : ascii) : bool :=
  negb (PyStr.contains (String c "") cs).
Definition times (n : nat) (p : ascii -> bool) : pattern := repeat (One p) n.

End Re.

(** The patterns of [main], in the order of their first use. *)
Module Pat.
Import Re PyStr.
Local Open Scope list_scope.

(** Source pattern "([A-Za-z0-9]+): client=([^[]+)\[" *)
Definition client : pattern :=
  group (plus is_alnum) ++ lit ": client=" ++ group (plus (none_of "[")) ++ lit "[".

(** Source pattern "postfix/pickup\[[^\]]+\]:\s+([A-Za-z0-9]+):\s+uid=" *)
Definition pickup : pattern :=
  lit "postfix/pickup[" ++ plus (none_of "]") ++ lit "]:" ++ plus is_space
  ++ group (plus is_alnum) ++ lit ":" ++ plus is_space ++ lit "uid=".

(** Source pattern "([A-Za-z0-9]+): from=<[^>]*>, size=(\d+)" *)
Definition qmgr_size : pattern :=
  group (plus is_alnum) ++ lit ": from=<" ++ [Star (none_of ">")] ++ lit ">, size="
  ++ group (plus is_digit).

(** Source pattern "user=([^,\\s]+)": in the raw string the class
    excludes the comma, the backslash and the letter s. *)
Definition auth_user : pattern :=
  lit "user=" ++ group (plus (none_of ",\s")).

(** Source pattern "client=([^[]+)" *)
Definition rate_client : pattern :=
  lit "client=" ++ group (plus (none_of "[")).

(** Source pattern "(\d{4}-\d{2}-\d{2})T(\d{2}):" *)
Definition timestamp : pattern :=
  group (times 4 is_digit ++ lit "-" ++ times 2 is_digit ++ lit "-" ++ times 2 is_digit)
  ++ lit "T" ++ group (times 2 is_digit) ++ lit ":".

(** Source pattern "postfix/smtp\[[^\]]+\]:\s+([A-Za-z0-9]+):" *)
Definition smtp_id : pattern :=
  lit "postfix/smtp[" ++ plus (none_of "]") ++ lit "]:" ++ plus is_space
  ++ group (plus is_alnum) ++ lit ":".

(** Source pattern, spaces added: from=< ( [^>]* ) > *)
Definition from_addr : pattern :=
  lit "from=<" ++ group [Star (none_of ">")] ++ lit ">".

(** Source pattern, spaces added: to=< ( [^>]* ) > *)
Definition to_addr : pattern :=
  lit "to=<" ++ group [Star (none_of ">")] ++ lit ">".

(** Source pattern, spaces added: delay= ( \d+ \.? \d* ) *)
Definition delay : pattern :=
  lit "delay=" ++ group (plus is_digit ++ [Opt (Ascii.eqb "."%char); Star is_digit]).

End Pat.

(** ** Exceptions *)

Inductive exn : Type :=
| OSError              (* an I/O failure other than a missing file *)
| ZeroDivisionError
| IndexError.

Inductive result (A : Type) : Type :=
| Ok (a : A)
| Raise (e : exn).
Arguments Ok {A} a.
Arguments Raise {A} e.

Definition bind {A B : Type} (r : result A) (f : A -> result B) : result B :=
  match r with
  | Ok a => f a
  | Raise e => Raise e
  end.

Notation "x <- r ;; k" := (bind r (fun x => k))
  (at level 100, r at next level, right associativity).

(** [a / b] on numbers *)
Definition truediv (a b : Q) : result Q :=
  if Qeq_bool b 0 then Raise ZeroDivisionError else Ok (a / b)%Q.

(** [a < b] and [a > b] on numbers *)
Definition Qltb (a b : Q) : bool := negb (Qle_bool b a).

(** [sum(l)] and [len(l)] *)
Definition qsum (l : list Q) : Q := fold_left Qplus l 0%Q.
Definition qlen {A : Type} (l : list A) : Q := inject_Z (Z.of_nat (length l)).

(** ** Calendar dates

    The dates of [datetime]: the proleptic Gregorian calendar, with the
    ordinal of a date as [date.toordinal] counts it. *)

Module Date.

Record date : Type := { year : Z; month : Z; day : Z }.

Definition is_leap (y : Z) : bool :=
  (y mod 4 =? 0) && (negb (y mod 100 =? 0) || (y mod 400 =? 0)).

Definition days_in_month (y m : Z) : Z :=
  if m =? 2 then (if is_leap y then 29 else 28)
  else if (m =? 4) || (m =? 6) || (m =? 9) || (m =? 11) then 30
  else 31.

Definition days_before_year (y : Z) : Z :=
  let y1 := y - 1 in
  y1 * 365 + y1 / 4 - y1 / 100 + y1 / 400.

(** The days of a common year before the first of month [m]. *)
Definition days_before_month_common (m : Z) : Z :=
  match m with
  | 1 => 0 | 2 => 31 | 3 => 59 | 4 => 90 | 5 => 120 | 6 => 151
  | 7 => 181 | 8 => 212 | 9 => 243 | 10 => 273 | 11 => 304 | _ => 334
  end.

Definition days_before_month (y m : Z) : Z :=
  days_before_month_common m + (if (2 <? m) && is_leap y then 1 else 0).

Definition toordinal (d : date) : Z :=
  days_before_year (year d) + days_before_month (year d) (month d) + day d.

Definition valid (d : date) : bool :=
  (1 <=? year d) && (year d <=? 9999) &&
  (1 <=? month d) && (month d <=? 12) &&
  (1 <=? day d) && (day d <=? days_in_month (year d) (month d)).

(** The day before [d]. *)
Definition prev_day (d : date) : date :=
  if 1 <? day d then {| year := year d; month := month d; day := day d - 1 |}
  else if 1 <? month d
       then {| year := year d; month := month d - 1;
               day := days_in_month (year d) (month d - 1) |}
       else {| year := year d - 1; month := 12; day := 31 |}.

(** [d - timedelta(days=n)] *)
Definition minus_days (n : nat) (d : date) : date := Nat.iter n prev_day d.

Definition digit (n : Z) : ascii := ascii_of_nat (48 + Z.to_nat (n mod 10)).

Definition pad2 (n : Z) : string :=
  String (digit (n / 10)) (String (digit n) "").

Definition pad4 (n : Z) : string :=
  String (digit (n / 1000)) (String (digit (n / 100)) (pad2 n)).

(** [d.strftime("%Y-%m-%d")], for the years of four digits *)
Definition strftime_Ymd (d : date) : string :=
  pad4 (year d) ++ "-" ++ pad2 (month d) ++ "-" ++ pad2 (day d).

End Date.

(** ** Configuration *)

Record thresholds : Type := {
  min_success_rate : Q;
  max_queue_time : Q;
  max_auth_failures : Q;
  high_volume_threshold_pct : Q;
  max_hourly_volume : Q;
  min_hourly_volume : Q;
  max_avg_size : Q;
  max_defer_rate : Q
}.

Record config : Type := {
  LOG_PATHS : list string;
  ALERT_THRESHOLDS : thresholds;
  HIGH_VOLUME_MODE : bool
}.

Definition default_thresholds : thresholds := {|
  min_success_rate := 95;
  max_queue_time := 30;
  max_auth_failures := 50;
  high_volume_threshold_pct := 5 # 100;
  max_hourly_volume := 500;
  min_hourly_volume := 10;
  max_avg_size := 10485760;
  max_defer_rate := 5
|}.

Definition default_config : config := {|
  LOG_PATHS := ["/var/log/mail.log"; "/var/log/mail.log.1"];
  ALERT_THRESHOLDS := default_thresholds;
  HIGH_VOLUME_MODE := true
|}.

(** ** The log source reader *)

(** What opening and reading a path does: the file is missing, or it
    gives all its lines, or it gives some lines and then fails with an I/O
    error other than [FileNotFoundError] (at once, when it cannot be
    opened). A compressed file is its decompressed text. *)
Inductive file : Type :=
| Missing
| Lines (ls : list string)
| Failing (ls : list string).

Definition filesystem := string -> file.

(** What a generator gives its consumer: the lines it yields and then
    either exhaustion or an exception. *)
Record stream : Type := { yielded : list string; raised : option exn }.

Definition log_lines_today (fs : filesystem) (logfile today : string) : stream :=
  match fs logfile with
  | Lines ls =>
      {| yielded := List.filter (fun line => PyStr.startswith line today) ls;
         raised := None |}
  | Failing ls =>
      {| yielded := List.filter (fun line => PyStr.startswith line today) ls;
         raised := Some OSError |}
  | Missing => {| yielded := []; raised := None |}
  end.

(** [for line in g: s = body(s, line)] *)
Definition for_lines {S : Type} (g : stream) (body : S -> string -> S) (s : S)
  : result S :=
  let s' := fold_left body (yielded g) s in
  match raised g with
  | None => Ok s'
  | Some e => Raise e
  end.

(** [for x in xs: s = body(s, x)] for a body that may raise *)
Fixpoint for_each {A S : Type} (xs : list A) (body : S -> A -> result S) (s : S)
  : result S :=
  match xs with
  | [] => Ok s
  | x :: xs' => s' <- body s x ;; for_each xs' body s'
  end.

(** The three nested loops both passes of [main] share. *)
Definition over_sources {S : Type} (fs : filesystem) (paths dates : list string)
    (body : S -> string -> S) (s : S) : result S :=
  for_each paths (fun s logpath =>
    for_each dates (fun s date =>
      for_lines (log_lines_today fs logpath date) body s) s) s.

(** [get_domain] *)
Definition get_domain (email : string) : string :=
  if String.eqb email "" || negb (PyStr.contains "@" email) then "unknown"
  else PyStr.after_last "@"%char email.

(** [c[k] += 1] on a [Counter] *)
Definition incr `{Countable K} (k : K) (c : gmap K Z) : gmap K Z :=
  <[k := default 0 (c !! k) + 1]> c.

(** ** First pass: the correlation index *)

Record index : Type := {
  message_clients : gmap string string;
  message_sizes : gmap string Z;
  sending_hosts : gmap string Z;
  auth_failures : gmap string Z;
  rate_limit_violations : gmap string Z
}.

Definition empty_index : index := {|
  message_clients := ∅;
  message_sizes := ∅;
  sending_hosts := ∅;
  auth_failures := ∅;
  rate_limit_violations := ∅
|}.

Definition first_pass_step (ix : index) (line : string) : index :=
  let client_match := Re.search Pat.client line in
  let clients1 :=
    match client_match with
    | Some (message_id :: hostname :: _) => <[message_id := hostname]> (message_clients ix)
    | _ => message_clients ix
    end in
  let hosts1 :=
    match client_match with
    | Some (_ :: hostname :: _) => incr hostname (sending_hosts ix)
    | _ => sending_hosts ix
    end in
  let pickup_match := Re.search1 Pat.pickup line in
  let clients2 :=
    match pickup_match with
    | Some message_id => <[message_id := "localhost"]> clients1
    | None => clients1
    end in
  let hosts2 :=
    match pickup_match with
    | Some _ => incr "localhost" hosts1
    | None => hosts1
    end in
  let sizes1 :=
    match Re.search Pat.qmgr_size line with
    | Some (message_id :: size :: _) => <[message_id := PyStr.int_of size]> (message_sizes ix)
    | _ => message_sizes ix
    end in
  let auth1 :=
    if PyStr.contains "authentication failed" (PyStr.lower line)
       || PyStr.contains "sasl login failed" (PyStr.lower line)
    then match Re.search1 Pat.auth_user line with
         | Some user => incr user (auth_failures ix)
         | None => incr "unknown" (auth_failures ix)
         end
    else auth_failures ix in
  let rate1 :=
    if PyStr.contains "too many" (PyStr.lower line)
       && PyStr.contains "reject" (PyStr.lower line)
    then match Re.search1 Pat.rate_client line with
         | Some client => incr client (rate_limit_violations ix)
         | None => rate_limit_violations ix
         end
    else rate_limit_violations ix in
  {| message_clients := clients2;
     message_sizes := sizes1;
     sending_hosts := hosts2;
     auth_failures := auth1;
     rate_limit_violations := rate1 |}.

(** ** Second pass: classification and aggregation

    The tables that only feed the rendering (the domain, pair, retry,
    relay and size-bucket tables) are left out; every counter the
    metrics, the alerts and the history read is here, and so is every
    table that reads the index of the first pass. *)

Record acc : Type := {
  sent_count : Z;
  deferred_count : Z;
  bounced_count : Z;
  total_size : Z;
  senders : gmap string Z;
  recipients : gmap string Z;
  recipient_hosts : gmap string (gmap string Z);
  hourly_traffic : gmap Z Z;
  suspicious_senders : gmap string Z;
  queue_times : list Q;
  mail_loops : list string;
  error_categories : gmap string Z;
  errors : list string
}.

Definition empty_acc : acc := {|
  sent_count := 0;
  deferred_count := 0;
  bounced_count := 0;
  total_size := 0;
  senders := ∅;
  recipients := ∅;
  recipient_hosts := ∅;
  hourly_traffic := ∅;
  suspicious_senders := ∅;
  queue_times := [];
  mail_loops := [];
  error_categories := ∅;
  errors := []
|}.

(** The mail-loop test of a sent line whose delay was parsed: the entries
    it appends to [mail_loops]. The bound is the float literal [0.1]. *)
Definition detect_mail_loop (queue_time : Q) (sm rm : option string) : list string :=
  match sm, rm with
  | Some sender, Some recipient =>
      if Qltb queue_time (PyStr.float_of "0.1") then
        if String.eqb sender recipient then ["Self-loop: " ++ sender]
        else if String.eqb (get_domain sender) (get_domain recipient)
                && String.eqb (get_domain sender) "eusd.org"
        then ["Internal loop: " ++ sender ++ " → " ++ recipient]
        else []
      else []
  | _, _ => []
  end.

(** [t[recipient][hostname] += 1] on a [defaultdict(Counter)] *)
Definition incr_host (recipient hostname : string) (t : gmap string (gmap string Z))
  : gmap string (gmap string Z) :=
  <[recipient := incr hostname (default ∅ (t !! recipient))]> t.

Definition deferred_category (line : string) : string :=
  if PyStr.contains "Connection timed out" line then "Connection Timeout"
  else if PyStr.contains "Connection refused" line then "Connection Refused"
  else if PyStr.contains "Temporary lookup failure" line then "DNS Issues"
  else if PyStr.contains "Temporary failure" line then "Temporary Failure"
  else if PyStr.contains "Greylisted" line then "Greylisted"
  else "Other Deferred".

Definition bounced_category (line : string) : string :=
  if PyStr.contains "user unknown" (PyStr.lower line)
     || PyStr.contains "recipient address rejected" line then "Unknown Recipient"
  else if PyStr.contains "mailbox full" (PyStr.lower line)
          || PyStr.contains "quota exceeded" (PyStr.lower line) then "Mailbox Full"
  else if PyStr.contains "rejected" (PyStr.lower line)
          && PyStr.contains "spam" (PyStr.lower line) then "Rejected as Spam"
  else if PyStr.contains "blocked" (PyStr.lower line)
          || PyStr.contains "blacklisted" (PyStr.lower line) then "Blocked/Blacklisted"
  else "Other Bounced".

Definition second_pass_step (ix : index) (a : acc) (line : string) : acc :=
  let time_match := Re.rematch Pat.timestamp line in
  let message_id := Re.search1 Pat.smtp_id line in
  let hostname :=
    default "unknown" (message_id ≫= (fun id => message_clients ix !! id)) in
  if PyStr.contains " status=sent " line then
    let sm := Re.search1 Pat.from_addr line in
    let rm := Re.search1 Pat.to_addr line in
    let delay_match := Re.search1 Pat.delay line in
    {| sent_count := sent_count a + 1;
       deferred_count := deferred_count a;
       bounced_count := bounced_count a;
       total_size :=
         match message_id ≫= (fun id => message_sizes ix !! id) with
         | Some msg_size => total_size a + msg_size
         | None => total_size a
         end;
       senders :=
         match sm with
         | Some sender => incr sender (senders a)
         | None => senders a
         end;
       recipients :=
         match rm with
         | Some recipient => incr recipient (recipients a)
         | None => recipients a
         end;
       recipient_hosts :=
         match rm with
         | Some recipient => incr_host recipient hostname (recipient_hosts a)
         | None => recipient_hosts a
         end;
       hourly_traffic :=
         match time_match with
         | Some (_ :: hour :: _) => incr (PyStr.int_of hour) (hourly_traffic a)
         | _ => hourly_traffic a
         end;
       suspicious_senders :=
         match sm with
         | Some sender => incr sender (suspicious_senders a)
         | None => suspicious_senders a
         end;
       queue_times :=
         match delay_match with
         | Some d => queue_times a ++ [PyStr.float_of d]
         | None => queue_times a
         end;
       mail_loops :=
         match delay_match with
         | Some d => mail_loops a ++ detect_mail_loop (PyStr.float_of d) sm rm
         | None => mail_loops a
         end;
       error_categories := error_categories a;
       errors := errors a |}
  else if PyStr.contains "status=deferred" line then
    let rm := Re.search1 Pat.to_addr line in
    {| sent_count := sent_count a;
       deferred_count := deferred_count a + 1;
       bounced_count := bounced_count a;
       total_size := total_size a;
       senders := senders a;
       recipients :=
         match rm with
         | Some recipient => incr recipient (recipients a)
         | None => recipients a
         end;
       recipient_hosts :=
         match rm with
         | Some recipient => incr_host recipient hostname (recipient_hosts a)
         | None => recipient_hosts a
         end;
       hourly_traffic := hourly_traffic a;
       suspicious_senders := suspicious_senders a;
       queue_times := queue_times a;
       mail_loops := mail_loops a;
       error_categories := incr (deferred_category line) (error_categories a);
       errors := errors a ++ [PyStr.strip line] |}
  else if PyStr.contains "status=bounced" line || PyStr.contains "status=reject" line then
    let rm := Re.search1 Pat.to_addr line in
    {| sent_count := sent_count a;
       deferred_count := deferred_count a;
       bounced_count := bounced_count a + 1;
       total_size := total_size a;
       senders := senders a;
       recipients :=
         match rm with
         | Some recipient => incr recipient (recipients a)
         | None => recipients a
         end;
       recipient_hosts :=
         match rm with
         | Some recipient => incr_host recipient hostname (recipient_hosts a)
         | None => recipient_hosts a
         end;
       hourly_traffic := hourly_traffic a;
       suspicious_senders := suspicious_senders a;
       queue_times := queue_times a;
       mail_loops := mail_loops a;
       error_categories := incr (bounced_category line) (error_categories a);
       errors := errors a ++ [PyStr.strip line] |}
  else a.

(** ** The history store *)

(** One day of history: metric name to number. The document of the
    history file is taken to be what the program writes, a JSON object of
    objects of numbers. *)
Abbreviation snapshot := (gmap string Q).
Abbreviation history := (gmap string (gmap string Q)).

(** The history file as [open] and [json.load] find it. *)
Inductive history_file : Type :=
| HMissing                    (* [FileNotFoundError] *)
| HCorrupt                    (* [json.JSONDecodeError] *)
| HUnreadable                 (* any other failure of [open] *)
| HDoc (h : history).

(** What [open(HISTORY_FILE, 'w')] and [json.dump] do. *)
Inductive write_outcome : Type :=
| WriteOk                     (* the document is written *)
| WriteDenied                 (* [PermissionError] *)
| WriteFails.                 (* any other failure of [open] or of the write *)

(** The file, and what writing it does. *)
Record store : Type := { hfile : history_file; hwrite : write_outcome }.

Definition load_historical_data (st : store) : result history :=
  match hfile st with
  | HDoc h => Ok h
  | HMissing | HCorrupt => Ok ∅
  | HUnreadable => Raise OSError
  end.

(** The mapping [save_historical_data] passes to [json.dump]: today's
    entry set, then the keys below the cutoff dropped. *)
Definition pruned_history (now : Date.date) (h : history) (today_stats : snapshot)
  : history :=
  let today_key := Date.strftime_Ymd now in
  let h1 := <[today_key := today_stats]> h in
  let cutoff_date := Date.strftime_Ymd (Date.minus_days 30 now) in
  filter (fun kv => Is_true (String.leb cutoff_date kv.1)) h1.

(** [PermissionError] is the one exception the source catches around the
    write; any other one leaves the function, and [main]. *)
Definition save_historical_data (now : Date.date) (h : history)
    (today_stats : snapshot) (st : store) : result store :=
  let h2 := pruned_history now h today_stats in
  match hwrite st with
  | WriteOk => Ok {| hfile := HDoc h2; hwrite := WriteOk |}
  | WriteDenied => Ok st
  | WriteFails => Raise OSError
  end.

(** ** The trend engine *)

Record trend : Type := {
  direction : string;
  percentage : Q;
  recent_avg : Q;
  baseline_avg : Q
}.

Definition dir_up : string := "↑".
Definition dir_down : string := "↓".
Definition dir_flat : string := "→".

(** [l[-n:]] and [l[:-n]] for [n > 0] *)
Definition last_n {A : Type} (n : nat) (l : list A) : list A := drop (length l - n) l.
Definition but_last_n {A : Type} (n : nat) (l : list A) : list A := take (length l - n) l.

(** [sorted] on strings *)
Definition sorted_strings (l : list string) : list string :=
  merge_sort (fun a b => Is_true (String.leb a b)) l.

Definition tracked_metrics : list string :=
  ["sent_count"; "success_rate"; "avg_queue_time"; "total_size"].

(** The body of the loop of [calculate_trends] for one metric. *)
Definition trend_of_metric (h : history) (dates : list string)
    (trends : gmap string trend) (metric : string) : result (gmap string trend) :=
  let values := omap (fun date => h !! date ≫= (fun day => day !! metric)) dates in
  if (2 <=? length values)%nat then
    recent <- truediv (qsum (last_n 3 values)) (qlen (last_n 3 values)) ;;
    older <-
      (if (3 <? length values)%nat
       then truediv (qsum (but_last_n 3 values)) (qlen (but_last_n 3 values))
       else match values with
            | v :: _ => Ok v
            | [] => Raise IndexError
            end) ;;
    if Qltb 0 older then
      q <- truediv (recent - older) older ;;
      let trend_pct := (q * 100)%Q in
      Ok (<[metric :=
              {| direction := if Qltb 5 trend_pct then dir_up
                              else if Qltb trend_pct (-5) then dir_down
                              else dir_flat;
                 percentage := trend_pct;
                 recent_avg := recent;
                 baseline_avg := older |}]> trends)
    else Ok trends
  else Ok trends.

Definition calculate_trends (h : history) : result (gmap string trend) :=
  if (size h <? 2)%nat then Ok ∅
  else
    let dates := last_n 8 (sorted_strings (map fst (map_to_list h))) in
    if (length dates <? 2)%nat then Ok ∅
    else for_each tracked_metrics (trend_of_metric h dates) ∅.

(** ** Metrics, alerts and the run *)

(** An alert, with the numbers its message formats. *)
Inductive alert : Type :=
| LowSuccessRate (rate : Q)
| HighQueueTime (seconds : Q)
| AuthenticationFailures (n : Z)
| MailLoopsDetected (n : nat)
| SuccessRateDeclining (pct : Q)
| QueueTimeIncreasing (pct : Q)
| PeakHourVolume (n : Z)
| HighDeferRate (rate : Q)
| LargeAverageSize (bytes : Q)
| HighThroughput (per_minute : Q).

(** [sum(c.values())], [max(c.values()) if c else 0], [min(...)] *)
Definition counter_total `{Countable K} (c : gmap K Z) : Z :=
  fold_left Z.add (map snd (map_to_list c)) 0.

Definition counter_max `{Countable K} (c : gmap K Z) : Z :=
  match map snd (map_to_list c) with
  | [] => 0
  | v :: vs => fold_left Z.max vs v
  end.

Definition counter_min `{Countable K} (c : gmap K Z) : Z :=
  match map snd (map_to_list c) with
  | [] => 0
  | v :: vs => fold_left Z.min vs v
  end.

(** [max(l) if l else 0] on numbers *)
Definition qmax_list (l : list Q) : Q :=
  match l with
  | [] => 0%Q
  | v :: vs => fold_left Qmax vs v
  end.

(** [x if c else 0] around a division *)
Definition guarded (c : bool) (r : result Q) : result Q :=
  if c then r else Ok 0%Q.

Record report : Type := {
  r_sent_count : Z;
  r_deferred_count : Z;
  r_bounced_count : Z;
  r_total_messages : Z;
  r_total_size : Z;
  r_success_rate : Q;
  r_avg_queue_time : Q;
  r_max_queue_time : Q;
  r_avg_message_size : Q;
  r_defer_rate : Q;
  r_max_hourly : Z;
  r_min_hourly : Z;
  r_throughput_per_minute : Q;
  r_health_score : Q;
  r_trends : gmap string trend;
  r_alerts : list alert;
  r_high_volume_threshold : Q;
  r_compromised_candidates : list string;
  r_mail_loops : list string;
  r_errors : list string;
  r_today_stats : snapshot;
  r_store : store
}.

Definition health (success_rate avg_queue_time : Q) (ix : index) (a : acc) : Q :=
  let h0 := 100%Q in
  let h1 := if Qltb success_rate 95 then (h0 - (95 - success_rate) * 2)%Q else h0 in
  let h2 := if Qltb 30 avg_queue_time
            then (h1 - Qmin (avg_queue_time - 30) 20)%Q else h1 in
  let h3 := if negb (bool_decide (auth_failures ix = ∅))
            then (h2 - Qmin (inject_Z (Z.of_nat (size (auth_failures ix)) * 5)) 30)%Q
            else h2 in
  let h4 := match mail_loops a with
            | [] => h3
            | _ => (h3 - inject_Z (Z.of_nat (length (mail_loops a)) * 10))%Q
            end in
  Qmax 0 h4.

Definition trend_pct (trends : gmap string trend) (metric : string) : option Q :=
  percentage <$> trends !! metric.

Definition evaluate_alerts (cfg : config) (ix : index) (a : acc)
    (trends : gmap string trend)
    (success_rate avg_queue_time defer_rate avg_message_size throughput_per_minute : Q)
    (max_hourly : Z) : list alert :=
  let t := ALERT_THRESHOLDS cfg in
  (if Qltb success_rate (min_success_rate t) then [LowSuccessRate success_rate] else [])
  ++ (if Qltb (max_queue_time t) avg_queue_time then [HighQueueTime avg_queue_time] else [])
  ++ (if Qltb (max_auth_failures t) (inject_Z (counter_total (auth_failures ix)))
      then [AuthenticationFailures (counter_total (auth_failures ix))] else [])
  ++ (match mail_loops a with
      | [] => []
      | _ => [MailLoopsDetected (length (mail_loops a))]
      end)
  ++ (match trend_pct trends "success_rate" with
      | Some p => if Qltb p (-10) then [SuccessRateDeclining p] else []
      | None => []
      end)
  ++ (match trend_pct trends "avg_queue_time" with
      | Some p => if Qltb 50 p then [QueueTimeIncreasing p] else []
      | None => []
      end)
  ++ (if HIGH_VOLUME_MODE cfg then
        (if Qltb (max_hourly_volume t) (inject_Z max_hourly)
         then [PeakHourVolume max_hourly] else [])
        ++ (if Qltb (max_defer_rate t) defer_rate then [HighDeferRate defer_rate] else [])
        ++ (if Qltb (max_avg_size t) avg_message_size
            then [LargeAverageSize avg_message_size] else [])
        ++ (if Qltb 100 throughput_per_minute
            then [HighThroughput throughput_per_minute] else [])
      else []).

(** The compromised-account candidates among the senders of sent lines. *)
Definition compromised (high_volume_threshold : Q) (suspicious : gmap string Z)
  : list string :=
  map fst
    (List.filter
       (fun sc => Qltb high_volume_threshold (inject_Z (snd sc))
                  && PyStr.contains "@eusd.org" (fst sc))
       (map_to_list suspicious)).

Definition stats_of (sent deferred bounced size : Z) (success_rate avg_queue_time hs : Q)
    (auth_count : Z) (loops : nat) : snapshot :=
  <["sent_count" := inject_Z sent]>
  (<["deferred_count" := inject_Z deferred]>
  (<["bounced_count" := inject_Z bounced]>
  (<["success_rate" := success_rate]>
  (<["avg_queue_time" := avg_queue_time]>
  (<["total_size" := inject_Z size]>
  (<["health_score" := hs]>
  (<["auth_failures_count" := inject_Z auth_count]>
  (<["mail_loops_count" := inject_Z (Z.of_nat loops)]> ∅)))))))).

(** What [main] computes once both passes are over, up to the history
    write; the rendering and the mail are not part of the engine. *)
Definition summarize (cfg : config) (now : Date.date) (st : store)
    (historical_data : history) (ix : index) (a : acc) : result report :=
  avg_queue_time <-
    guarded (negb (Nat.eqb (length (queue_times a)) 0))
            (truediv (qsum (queue_times a)) (qlen (queue_times a))) ;;
  let max_queue := qmax_list (queue_times a) in
  let total_messages := sent_count a + deferred_count a + bounced_count a in
  success_rate <-
    guarded (0 <? total_messages)
            (q <- truediv (inject_Z (sent_count a)) (inject_Z total_messages) ;;
             Ok (q * 100)%Q) ;;
  trends <- calculate_trends historical_data ;;
  avg_message_size <-
    guarded (0 <? total_messages)
            (truediv (inject_Z (total_size a)) (inject_Z total_messages)) ;;
  defer_rate <-
    guarded (0 <? total_messages)
            (q <- truediv (inject_Z (deferred_count a)) (inject_Z total_messages) ;;
             Ok (q * 100)%Q) ;;
  let max_hourly := counter_max (hourly_traffic a) in
  let min_hourly := counter_min (hourly_traffic a) in
  throughput_per_minute <-
    guarded (0 <? total_messages)
            (truediv (inject_Z total_messages) (inject_Z (24 * 60))) ;;
  let health_score := health success_rate avg_queue_time ix a in
  let alerts :=
    evaluate_alerts cfg ix a trends success_rate avg_queue_time defer_rate
                    avg_message_size throughput_per_minute max_hourly in
  let high_volume_threshold :=
    Qmax 50 (inject_Z total_messages * high_volume_threshold_pct (ALERT_THRESHOLDS cfg)) in
  let compromised_candidates := compromised high_volume_threshold (suspicious_senders a) in
  let today_stats :=
    stats_of (sent_count a) (deferred_count a) (bounced_count a) (total_size a)
             success_rate avg_queue_time health_score
             (counter_total (auth_failures ix)) (length (mail_loops a)) in
  written <- save_historical_data now historical_data today_stats st ;;
  Ok {| r_sent_count := sent_count a;
        r_deferred_count := deferred_count a;
        r_bounced_count := bounced_count a;
        r_total_messages := total_messages;
        r_total_size := total_size a;
        r_success_rate := success_rate;
        r_avg_queue_time := avg_queue_time;
        r_max_queue_time := max_queue;
        r_avg_message_size := avg_message_size;
        r_defer_rate := defer_rate;
        r_max_hourly := max_hourly;
        r_min_hourly := min_hourly;
        r_throughput_per_minute := throughput_per_minute;
        r_health_score := health_score;
        r_trends := trends;
        r_alerts := alerts;
        r_high_volume_threshold := high_volume_threshold;
        r_compromised_candidates := compromised_candidates;
        r_mail_loops := mail_loops a;
        r_errors := errors a;
        r_today_stats := today_stats;
        r_store := written |}.

Definition main (cfg : config) (fs : filesystem) (st : store) (now : Date.date)
  : result report :=
  let today_date := Date.strftime_Ymd now in
  let yesterday_date := Date.strftime_Ymd (Date.minus_days 1 now) in
  historical_data <- load_historical_data st ;;
  ix <- over_sources fs (LOG_PATHS cfg) [today_date; yesterday_date]
                     first_pass_step empty_index ;;
  a <- over_sources fs (LOG_PATHS cfg) [today_date; yesterday_date]
                    (second_pass_step ix) empty_acc ;;
  summarize cfg now st historical_data ix a.

(** ** Invariants of the second pass *)

(** What every line of the second pass keeps true of the accumulators:
    the counters are not negative, a delay is recorded only on a sent
    line, and an error line is kept for every deferred and every bounced
    line. *)
Definition acc_ok (a : acc) : Prop :=
  0 <= sent_count a /\ 0 <= deferred_count a /\ 0 <= bounced_count a /\
  Z.of_nat (length (queue_times a)) <= sent_count a /\
  Z.of_nat (length (errors a)) = deferred_count a + bounced_count a.

(** ** Sample inputs *)

Definition march_10 : Date.date :=
  {| Date.year := 2025; Date.month := 3; Date.day := 10 |}.

Definition fresh_store : store := {| hfile := HMissing; hwrite := WriteOk |}.

(** A host none of whose log files exists. *)
Definition no_logs : filesystem := fun _ => Missing.

Definition sent_line : string :=
  "2025-03-10T09:15:03 mail postfix/smtp[13]: AAA1: to=<b@y.org>, from=<a@x.org>, relay=r[192.0.2.1]:25, delay=1.2, status=sent (250 ok)".

(** The first log cannot be read (say, permission denied); the rotated
    log holds one sent line of the day. *)
Definition first_log_unreadable : filesystem :=
  fun path =>
    if String.eqb path "/var/log/mail.log" then Failing []
    else if String.eqb path "/var/log/mail.log.1" then Lines [sent_line]
    else Missing.

Definition only_rotated_log : config := {|
  LOG_PATHS := ["/var/log/mail.log.1"];
  ALERT_THRESHOLDS := default_thresholds;
  HIGH_VOLUME_MODE := true
|}.


Definition deferred_line : string :=
  "2025-03-10T09:15:03 mail postfix/smtp[13]: AAA2: to=<b@y.org>, relay=none, delay=12, status=deferred (Connection timed out)".

(** A log of [n] deferred lines of the day. *)
Definition deferred_log (n : nat) : filesystem :=
  fun path =>
    if String.eqb path "/var/log/mail.log" then Lines (repeat deferred_line n)
    else Missing.

(** The slice of the error lines both reports show, [errors[-10:]]. *)
Definition recent_errors (r : report) : list string := last_n 10 (r_errors r).

(** [cfg] with another [min_hourly_volume]. *)
Definition with_min_hourly_volume (v : Q) (cfg : config) : config := {|
  LOG_PATHS := LOG_PATHS cfg;
  ALERT_THRESHOLDS := {|
    min_success_rate := min_success_rate (ALERT_THRESHOLDS cfg);
    max_queue_time := max_queue_time (ALERT_THRESHOLDS cfg);
    max_auth_failures := max_auth_failures (ALERT_THRESHOLDS cfg);
    high_volume_threshold_pct := high_volume_threshold_pct (ALERT_THRESHOLDS cfg);
    max_hourly_volume := max_hourly_volume (ALERT_THRESHOLDS cfg);
    min_hourly_volume := v;
    max_avg_size := max_avg_size (ALERT_THRESHOLDS cfg);
    max_defer_rate := max_defer_rate (ALERT_THRESHOLDS cfg)
  |};
  HIGH_VOLUME_MODE := HIGH_VOLUME_MODE cfg
|}.

(** Two configurations that differ in [min_hourly_volume] at most. *)
Definition same_but_min_hourly_volume (c1 c2 : config) : Prop :=
  LOG_PATHS c1 = LOG_PATHS c2 /\
  HIGH_VOLUME_MODE c1 = HIGH_VOLUME_MODE c2 /\
  min_success_rate (ALERT_THRESHOLDS c1) = min_success_rate (ALERT_THRESHOLDS c2) /\
  max_queue_time (ALERT_THRESHOLDS c1) = max_queue_time (ALERT_THRESHOLDS c2) /\
  max_auth_failures (ALERT_THRESHOLDS c1) = max_auth_failures (ALERT_THRESHOLDS c2) /\
  high_volume_threshold_pct (ALERT_THRESHOLDS c1)
  = high_volume_threshold_pct (ALERT_THRESHOLDS c2) /\
  max_hourly_volume (ALERT_THRESHOLDS c1) = max_hourly_volume (ALERT_THRESHOLDS c2) /\
  max_avg_size (ALERT_THRESHOLDS c1) = max_avg_size (ALERT_THRESHOLDS c2) /\
  max_defer_rate (ALERT_THRESHOLDS c1) = max_defer_rate (ALERT_THRESHOLDS c2).

(** The direction of a trend follows its percentage: up strictly above 5,
    down strictly below -5, flat in between, the two bounds included. *)
Definition direction_matches (t : trend) : Prop :=
  (direction t = dir_up <-> (5 < percentage t)%Q) /\
  (direction t = dir_down <-> (percentage t < -5)%Q) /\
  (direction t = dir_flat <-> (-5 <= percentage t <= 5)%Q).

(** Two days of history, 100 then 110 messages sent. *)
Definition two_days : history :=
  <["2025-03-08" := <["sent_count" := 100%Q]> ∅]>
  (<["2025-03-09" := <["sent_count" := 110%Q]> ∅]> ∅).

(** The mail-loop condition of a sent line, as the specification words
    it: the delay the line writes is below a tenth of a second, and the
    sender is the recipient or both are of the internal domain. *)
Definition claimed_loop_condition (delay sender recipient : string) : Prop :=
  (PyStr.decimal_of delay < 1 # 10)%Q /\
  (sender = recipient \/
   (get_domain sender = "eusd.org" /\ get_domain recipient = "eusd.org")).

(** The same condition on the floats the source compares: the delay
    [float] has parsed, against the float literal [0.1]. *)
Definition loop_condition (queue_time : Q) (sender recipient : string) : Prop :=
  (queue_time < PyStr.float_of "0.1")%Q /\
  (sender = recipient \/
   (get_domain sender = "eusd.org" /\ get_domain recipient = "eusd.org")).

(** A sent line between two addresses of the internal domain, delivered
    in 0.05 s. *)
Definition internal_fast_line : string :=
  "2025-03-10T09:15:03 mail postfix/smtp[13]: AAA1: to=<b@eusd.org>, from=<a@eusd.org>, relay=r[192.0.2.1]:25, delay=0.05, status=sent (250 ok)".

(** The same line with a delay just below a tenth of a second, which
    [float] rounds to the float [0.1]. *)
Definition almost_fast_line : string :=
  "2025-03-10T09:15:03 mail postfix/smtp[13]: AAA1: to=<b@eusd.org>, from=<a@eusd.org>, relay=r[192.0.2.1]:25, delay=0.09999999999999999999, status=sent (250 ok)".

(** A sent line of an address of the internal domain to itself, delivered
    in 0.05 s. *)
Definition self_addressed_line : string :=
  "2025-03-10T09:15:03 mail postfix/smtp[13]: AAA1: to=<a@eusd.org>, from=<a@eusd.org>, relay=r[192.0.2.1]:25, delay=0.05, status=sent (250 ok)".

(** A sent line whose sender is of another domain, one that only starts
    with the name of the internal one. *)
Definition lookalike_line : string :=
  "2025-03-10T09:15:03 mail postfix/smtp[13]: AAA1: to=<b@y.org>, from=<eve@eusd.org.example.net>, relay=r[192.0.2.1]:25, delay=1.2, status=sent (250 ok)".

(** A log of 51 such lines. *)
Definition lookalike_log : filesystem :=
  fun path =>
    if String.eqb path "/var/log/mail.log" then Lines (repeat lookalike_line 51)
    else Missing.

Definition client_line : string :=
  "2025-03-10T09:15:02 mail postfix/smtpd[12]: AAA1: client=host1[10.0.0.1]".

(** Eight days of history: five days of 100 messages sent, then three
    days of 300. *)
Definition eight_days : history :=
  list_to_map
    (map (fun kv => (fst kv, <["sent_count" := snd kv]> ∅))
       [("2025-03-02", 100%Q); ("2025-03-03", 100%Q); ("2025-03-04", 100%Q);
        ("2025-03-05", 100%Q); ("2025-03-06", 100%Q); ("2025-03-07", 300%Q);
        ("2025-03-08", 300%Q); ("2025-03-09", 300%Q)]).

(** ** Calendar order *)

(** The number [YYYYMMDD] of a date. *)
Definition key (d : Date.date) : Z :=
  Date.year d * 10000 + Date.month d * 100 + Date.day d.

(** The extra day of a leap year. *)
Definition leap_day (y : Z) : Z := if Date.is_leap y then 1 else 0.

(** A month of the year and a day of that month, whatever the year. *)
Definition well_formed (d : Date.date) : Prop :=
  1 <= Date.month d <= 12 /\
  1 <= Date.day d <= Date.days_in_month (Date.year d) (Date.month d).

(** ** The rest of the engine and of the report *)

(** Both passes of [main], without the history and the metrics. *)
Definition run_passes (cfg : config) (fs : filesystem) (now : Date.date)
  : result (index * acc) :=
  let today_date := Date.strftime_Ymd now in
  let yesterday_date := Date.strftime_Ymd (Date.minus_days 1 now) in
  ix <- over_sources fs (LOG_PATHS cfg) [today_date; yesterday_date]
                     first_pass_step empty_index ;;
  a <- over_sources fs (LOG_PATHS cfg) [today_date; yesterday_date]
                    (second_pass_step ix) empty_acc ;;
  Ok (ix, a).

(** The classification of the second pass: which branch a line takes. *)
Inductive status : Type := Sent | Deferred | Bounced | Ignored.

Definition classify (line : string) : status :=
  if PyStr.contains " status=sent " line then Sent
  else if PyStr.contains "status=deferred" line then Deferred
  else if PyStr.contains "status=bounced" line || PyStr.contains "status=reject" line
       then Bounced
  else Ignored.

Definition is_status (s : status) (line : string) : bool :=
  match classify line, s with
  | Sent, Sent | Deferred, Deferred | Bounced, Bounced | Ignored, Ignored => true
  | _, _ => false
  end.

(** [format_bytes]: the number and the unit its f-string formats. The
    division by 1024 is exact on floats, a power of two. *)
Fixpoint format_bytes_from (units : list string) (size : Q) : Q * string :=
  match units with
  | [] => (size, "TB")
  | unit :: units' =>
      if Qltb size 1024 then (size, unit)
      else format_bytes_from units' (size / 1024)%Q
  end.

Definition format_bytes (size : Q) : Q * string :=
  format_bytes_from ["B"; "KB"; "MB"; "GB"] size.

(** The power of 1024 a unit stands for. *)
Definition unit_scale (unit : string) : Q :=
  if String.eqb unit "B" then 1
  else if String.eqb unit "KB" then 1024
  else if String.eqb unit "MB" then 1024 * 1024
  else if String.eqb unit "GB" then 1024 * 1024 * 1024
  else 1024 * 1024 * 1024 * 1024.

(** The patterns of the two error analyses. *)
Module ErrPat.
Import Re PyStr.
Local Open Scope list_scope.

(** Source pattern "to=<[^@]*@([^>]+)>" *)
Definition to_domain : pattern :=
  lit "to=<" ++ [Star (none_of "@")] ++ lit "@" ++ group (plus (none_of ">"))
  ++ lit ">".

(** Source pattern "([A-Za-z0-9]+):" *)
Definition first_id : pattern := group (plus is_alnum) ++ lit ":".

End ErrPat.

(** [analyze_errors_by_domain]: per destination domain, the number of
    error lines and the first three of them. *)
Definition collect_domain (domain_errors : gmap string (list string)) (error : string)
  : gmap string (list string) :=
  match Re.search1 ErrPat.to_domain error with
  | Some domain =>
      <[domain := (default [] (domain_errors !! domain) ++ [error])%list]> domain_errors
  | None => domain_errors
  end.

Definition analyze_errors_by_domain (errors : list string)
  : gmap string (Z * list string) :=
  let domain_errors := fold_left collect_domain errors ∅ in
  (fun error_list => (Z.of_nat (length error_list), take 3 error_list))
    <$> domain_errors.

(** [analyze_errors_by_host]: per sending host, the number of error
    lines. *)
Definition host_of_error (message_clients : gmap string string) (error : string)
  : option string :=
  match Re.search1 ErrPat.first_id error with
  | Some msg_id => Some (default "unknown" (message_clients !! msg_id))
  | None => None
  end.

Definition collect_host (message_clients : gmap string string)
    (host_errors : gmap string Z) (error : string) : gmap string Z :=
  match host_of_error message_clients error with
  | Some hostname => incr hostname host_errors
  | None => host_errors
  end.

Definition analyze_errors_by_host (errors : list string)
    (message_clients : gmap string string) : gmap string Z :=
  fold_left (collect_host message_clients) errors ∅.

(** The "Peak/Min Ratio" cell of the performance table of the HTML
    report: the table is rendered in high-volume mode above 100 messages,
    and the cell divides the busiest hour by the quietest. *)
Definition peak_min_ratio (cfg : config) (r : report) : result (option Q) :=
  if HIGH_VOLUME_MODE cfg && (100 <? r_total_messages r) then
    q <- truediv (inject_Z (r_max_hourly r)) (inject_Z (r_min_hourly r)) ;;
    Ok (Some q)
  else Ok None.

(** The entries the HTML report shows of [mail_loops], [mail_loops[:10]]. *)
Definition shown_mail_loops (r : report) : list string := take 10 (r_mail_loops r).

(** A log of [n] copies of the deferred line followed by [k] copies of the
    sent line. *)
Definition mixed_log (n k : nat) : filesystem :=
  fun path =>
    if String.eqb path "/var/log/mail.log"
    then Lines (repeat deferred_line n ++ repeat sent_line k)
    else Missing.

(** The lines a pass reads when no source fails, in the order it reads
    them. *)
Definition day_lines (fs : filesystem) (paths dates : list string) : list string :=
  flat_map (fun logpath =>
    flat_map (fun date => yielded (log_lines_today fs logpath date)) dates) paths.

(** How many lines of a list take a branch of the second pass. *)
Definition count_status (s : status) (lines : list string) : Z :=
  Z.of_nat (length (List.filter (is_status s) lines)).

(** 1 for [true], 0 for [false]. *)
Definition indicator (b : bool) : Z := if b then 1 else 0.

(** The four alerts of the high-volume mode. *)
Definition high_volume_alert (al : alert) : bool :=
  match al with
  | PeakHourVolume _ | HighDeferRate _ | LargeAverageSize _ | HighThroughput _ => true
  | _ => false
  end.

Definition is_throughput_alert (al : alert) : bool :=
  match al with
  | HighThroughput _ => true
  | _ => false
  end.

Definition mode_off : config := {|
  LOG_PATHS := ["/var/log/mail.log"];
  ALERT_THRESHOLDS := default_thresholds;
  HIGH_VOLUME_MODE := false
|}.

(** Whether the first analysis files an error line under a domain, and
    the second under a host. *)
Definition has_domain (domain error : string) : bool :=
  match Re.search1 ErrPat.to_domain error with
  | Some d => String.eqb d domain
  | None => false
  end.

Definition has_host (message_clients : gmap string string) (hostname error : string)
  : bool :=
  match host_of_error message_clients error with
  | Some host => String.eqb host hostname
  | None => false
  end.

(** Whether the first pass counts a line as an authentication failure. *)
Definition is_auth_failure (line : string) : bool :=
  PyStr.contains "authentication failed" (PyStr.lower line)
  || PyStr.contains "sasl login failed" (PyStr.lower line).

(** A log line of a failed login. *)
Definition auth_failure_line : string :=
  "2025-03-10T09:15:04 mail postfix/smtpd[14]: warning: unknown[192.0.2.7]: SASL LOGIN authentication failed: UGFzc3dvcmQ6".

(** An error line of the day, without the date and the hour it starts
    with. *)
Definition error_line_tail : string :=
  "15:03 mail postfix/smtp[13]: AAA2: to=<b@y.org>, relay=none, delay=12, status=deferred (Connection timed out)".


(** A report with another history store. *)
Definition set_store (s : store) (r : report) : report := {|
  r_sent_count := r_sent_count r;
  r_deferred_count := r_deferred_count r;
  r_bounced_count := r_bounced_count r;
  r_total_messages := r_total_messages r;
  r_total_size := r_total_size r;
  r_success_rate := r_success_rate r;
  r_avg_queue_time := r_avg_queue_time r;
  r_max_queue_time := r_max_queue_time r;
  r_avg_message_size := r_avg_message_size r;
  r_defer_rate := r_defer_rate r;
  r_max_hourly := r_max_hourly r;
  r_min_hourly := r_min_hourly r;
  r_throughput_per_minute := r_throughput_per_minute r;
  r_health_score := r_health_score r;
  r_trends := r_trends r;
  r_alerts := r_alerts r;
  r_high_volume_threshold := r_high_volume_threshold r;
  r_compromised_candidates := r_compromised_candidates r;
  r_mail_loops := r_mail_loops r;
  r_errors := r_errors r;
  r_today_stats := r_today_stats r;
  r_store := s
|}.

(** A counter all of whose entries count one occurrence at least. *)
Definition positive_counter `{Countable K} (c : gmap K Z) : Prop :=
  map_Forall (fun _ v => 1 <= v) c.

(** What every line of the second pass keeps true of its tables: no
    entry is below 1, the suspicious senders add up to the sent lines
    at most, and no hour has traffic before a line is sent. *)
Definition tables_ok (a : acc) : Prop :=
  positive_counter (hourly_traffic a) /\
  positive_counter (suspicious_senders a) /\
  counter_total (suspicious_senders a) <= sent_count a /\
  0 <= sent_count a /\
  (sent_count a = 0 -> hourly_traffic a = ∅).

(** The tail of the identifier pattern after its first character: the
    rest of the run of letters and digits, then a colon. *)
Definition id_tail : string -> Re.caps -> option (list string) :=
  Re.star PyStr.is_alnum (Re.match_here [Re.Close; Re.One (Ascii.eqb ":")]).

(** * Properties *)

(** ** Numbers and exceptions *)

Lemma Qltb_lt (a b : Q) : Qltb a b = true <-> (a < b)%Q.
Proof.
  unfold Qltb. rewrite negb_true_iff, <- not_true_iff_false, Qle_bool_iff.
  split; [apply Qnot_le_lt | apply Qlt_not_le].
Qed.

Lemma Qltb_ge (a b : Q) : Qltb a b = false <-> (b <= a)%Q.
Proof.
  unfold Qltb. rewrite negb_false_iff. apply Qle_bool_iff.
Qed.

Lemma truediv_ok (a b : Q) : ~ (b == 0)%Q -> truediv a b = Ok (a / b)%Q.
Proof.
  intros Hb. unfold truediv.
  destruct (Qeq_bool b 0) eqn:E; [|reflexivity].
  apply Qeq_bool_iff in E. contradiction.
Qed.

Lemma qlen_nonzero {A : Type} (l : list A) : (0 < length l)%nat -> ~ (qlen l == 0)%Q.
Proof.
  intros Hl. unfold qlen, Qeq. simpl. lia.
Qed.

Lemma inject_Z_nonzero (z : Z) : z <> 0 -> ~ (inject_Z z == 0)%Q.
Proof.
  intros Hz. unfold Qeq. simpl. lia.
Qed.

(** ** Loops *)

Section LoopRules.
Context {A S : Type}.

Lemma for_each_cons (x : A) (xs : list A) (body : S -> A -> result S) (s : S) :
  for_each (x :: xs) body s = (s' <- body s x ;; for_each xs body s').
Proof. reflexivity. Qed.

(** A body that never raises makes a loop that never raises. *)
Lemma for_each_total (body : S -> A -> result S) :
  (forall s x, exists s', body s x = Ok s') ->
  forall xs s, exists s', for_each xs body s = Ok s'.
Proof.
  intros Hbody xs. induction xs as [|x xs IH]; intros s; simpl.
  - eauto.
  - destruct (Hbody s x) as [s1 ->]. simpl. apply IH.
Qed.

(** A property every iteration keeps holds when the loop ends. *)
Lemma for_each_invariant (P : S -> Prop) (body : S -> A -> result S) :
  (forall s x s', P s -> body s x = Ok s' -> P s') ->
  forall xs s s', P s -> for_each xs body s = Ok s' -> P s'.
Proof.
  intros Hbody xs. induction xs as [|x xs IH]; intros s s' Hs; simpl.
  - intros [= <-]. exact Hs.
  - destruct (body s x) as [s1|e] eqn:E; simpl; [|discriminate].
    apply IH. eapply Hbody; eauto.
Qed.

(** Whatever a loop raises, one of its iterations raised. *)
Lemma for_each_raises (Bad : exn -> Prop) (body : S -> A -> result S) :
  (forall s x e, body s x = Raise e -> Bad e) ->
  forall xs s e, for_each xs body s = Raise e -> Bad e.
Proof.
  intros Hbody xs. induction xs as [|x xs IH]; intros s e; simpl.
  - discriminate.
  - destruct (body s x) as [s1|e1] eqn:E; simpl.
    + apply IH.
    + intros [= <-]. eauto.
Qed.
End LoopRules.

Lemma fold_left_invariant {A S : Type} (P : S -> Prop) (body : S -> A -> S) :
  (forall s x, P s -> P (body s x)) ->
  forall xs s, P s -> P (fold_left body xs s).
Proof.
  intros Hbody xs. induction xs as [|x xs IH]; intros s Hs; simpl; auto.
Qed.

Lemma for_lines_invariant {S : Type} (P : S -> Prop) (body : S -> string -> S) g s s' :
  (forall s line, P s -> P (body s line)) ->
  P s -> for_lines g body s = Ok s' -> P s'.
Proof.
  intros Hbody Hs. unfold for_lines.
  destruct (raised g); [discriminate|].
  intros [= <-]. apply fold_left_invariant; assumption.
Qed.

Lemma for_lines_raises {S : Type} (body : S -> string -> S) fs logfile today s e :
  for_lines (log_lines_today fs logfile today) body s = Raise e -> e = OSError.
Proof.
  unfold for_lines, log_lines_today.
  destruct (fs logfile); simpl; congruence.
Qed.

(** A property every line keeps holds after a whole pass. *)
Lemma over_sources_invariant {S : Type} (P : S -> Prop) fs paths dates
    (body : S -> string -> S) s s' :
  (forall s line, P s -> P (body s line)) ->
  P s -> over_sources fs paths dates body s = Ok s' -> P s'.
Proof.
  intros Hbody Hs. unfold over_sources.
  apply for_each_invariant; [|exact Hs].
  intros s1 logpath s2 Hs1. apply for_each_invariant; [|exact Hs1].
  intros s3 date s4 Hs3. apply for_lines_invariant; assumption.
Qed.

(** A pass raises nothing but the I/O error of a source. *)
Lemma over_sources_raises {S : Type} fs paths dates (body : S -> string -> S) s e :
  over_sources fs paths dates body s = Raise e -> e = OSError.
Proof.
  unfold over_sources.
  apply (for_each_raises (fun e => e = OSError)).
  intros s1 logpath e1.
  apply (for_each_raises (fun e => e = OSError)).
  intros s2 date e2. apply for_lines_raises.
Qed.

(** ** The second pass keeps its invariants *)

Lemma empty_acc_ok : acc_ok empty_acc.
Proof. unfold acc_ok. simpl. lia. Qed.

Lemma second_pass_step_ok ix a line : acc_ok a -> acc_ok (second_pass_step ix a line).
Proof.
  unfold acc_ok, second_pass_step. intros (Hs & Hd & Hb & Hq & He).
  destruct (PyStr.contains " status=sent " line).
  - simpl. destruct (Re.search1 Pat.delay line); rewrite ?length_app; simpl; lia.
  - destruct (PyStr.contains "status=deferred" line).
    + simpl. rewrite length_app. simpl. lia.
    + destruct (PyStr.contains "status=bounced" line || PyStr.contains "status=reject" line).
      * simpl. rewrite length_app. simpl. lia.
      * lia.
Qed.

Lemma second_pass_ok fs paths dates ix a :
  over_sources fs paths dates (second_pass_step ix) empty_acc = Ok a -> acc_ok a.
Proof.
  apply over_sources_invariant; [|exact empty_acc_ok].
  intros s line. apply second_pass_step_ok.
Qed.

(** ** The trend engine never divides by zero *)

Lemma length_last_n {A : Type} (n : nat) (l : list A) :
  length (last_n n l) = Nat.min n (length l).
Proof. unfold last_n. rewrite length_drop. lia. Qed.

Lemma length_but_last_n {A : Type} (n : nat) (l : list A) :
  length (but_last_n n l) = (length l - n)%nat.
Proof. unfold but_last_n. rewrite length_take. lia. Qed.

Lemma trend_of_metric_total h dates trends metric :
  exists trends', trend_of_metric h dates trends metric = Ok trends'.
Proof.
  unfold trend_of_metric.
  set (values := omap _ dates).
  destruct (2 <=? length values)%nat eqn:E2; [|eauto].
  apply Nat.leb_le in E2.
  rewrite truediv_ok by (apply qlen_nonzero; rewrite length_last_n; lia).
  simpl.
  assert (Holder : exists older,
    (if (3 <? length values)%nat
     then truediv (qsum (but_last_n 3 values)) (qlen (but_last_n 3 values))
     else match values with v :: _ => Ok v | [] => Raise IndexError end) = Ok older).
  { destruct (3 <? length values)%nat eqn:E3.
    - apply Nat.ltb_lt in E3.
      rewrite truediv_ok by (apply qlen_nonzero; rewrite length_but_last_n; lia).
      eauto.
    - destruct values as [|v values]; [simpl in E2; lia | eauto]. }
  destruct Holder as [older ->]. simpl.
  destruct (Qltb 0 older) eqn:Epos; [|eauto].
  apply Qltb_lt in Epos.
  rewrite truediv_ok by (intros Hz; rewrite Hz in Epos; exact (Qlt_irrefl 0 Epos)).
  simpl. eauto.
Qed.

Lemma calculate_trends_total h : exists trends, calculate_trends h = Ok trends.
Proof.
  unfold calculate_trends.
  destruct (size h <? 2)%nat; [eauto|].
  destruct (length _ <? 2)%nat; [eauto|].
  apply for_each_total. intros s x. apply trend_of_metric_total.
Qed.

(** ** The metrics never divide by zero *)

Lemma guarded_rate_ok (n total : Z) :
  exists q,
    guarded (0 <? total)
            (q <- truediv (inject_Z n) (inject_Z total) ;; Ok (q * 100)%Q) = Ok q /\
    (total = 0 -> q = 0%Q) /\
    (0 <= n <= total -> (0 <= q <= 100)%Q).
Proof.
  unfold guarded. destruct (0 <? total) eqn:E.
  - apply Z.ltb_lt in E.
    rewrite truediv_ok by (apply inject_Z_nonzero; lia). simpl.
    eexists. split; [reflexivity|]. split; [lia|].
    intros [Hn Hle].
    assert (Ht : (0 < inject_Z total)%Q) by (rewrite <- (Zlt_Qlt 0); lia).
    assert (Hn' : (0 <= inject_Z n)%Q) by (rewrite <- (Zle_Qle 0); lia).
    assert (Hle' : (inject_Z n <= inject_Z total)%Q) by (rewrite <- Zle_Qle; lia).
    assert (Hq0 : (0 <= inject_Z n / inject_Z total)%Q).
    { apply Qle_shift_div_l; [exact Ht|]. lra. }
    assert (Hq1 : (inject_Z n / inject_Z total <= 1)%Q).
    { apply Qle_shift_div_r; [exact Ht|]. lra. }
    split; lra.
  - exists 0%Q. split; [reflexivity|]. split; [reflexivity|]. intros _. split; lra.
Qed.

Lemma guarded_div_ok (c : bool) (a b : Q) :
  (c = true -> ~ (b == 0)%Q) -> exists q, guarded c (truediv a b) = Ok q.
Proof.
  intros Hb. unfold guarded. destruct c; [|eauto].
  rewrite truediv_ok by auto. eauto.
Qed.

Lemma guarded_avg_ok (l : list Q) :
  exists q,
    guarded (negb (Nat.eqb (length l) 0)) (truediv (qsum l) (qlen l)) = Ok q /\
    (l = [] -> q = 0%Q).
Proof.
  destruct l as [|x l].
  - exists 0%Q. split; reflexivity.
  - destruct (guarded_div_ok (negb (Nat.eqb (length (x :: l)) 0))
                (qsum (x :: l)) (qlen (x :: l))) as [q Hq].
    + intros _. apply qlen_nonzero. simpl. lia.
    + exists q. split; [exact Hq | discriminate].
Qed.

(** The history write is the one step of [save_historical_data] that can
    raise. *)
Lemma save_historical_data_cases now h today_stats st :
  (exists written, save_historical_data now h today_stats st = Ok written /\
                   hwrite st <> WriteFails) \/
  (save_historical_data now h today_stats st = Raise OSError /\
   hwrite st = WriteFails).
Proof.
  unfold save_historical_data. destruct (hwrite st).
  - left. eexists. split; [reflexivity | discriminate].
  - left. eexists. split; [reflexivity | discriminate].
  - right. split; reflexivity.
Qed.

(** [summarize] returns unless the history write fails, and its report
    carries the counters of the second pass and the guarded rates. *)
Lemma summarize_result cfg now st h ix a :
  (summarize cfg now st h ix a = Raise OSError /\ hwrite st = WriteFails) \/
  exists r,
    summarize cfg now st h ix a = Ok r /\
    hwrite st <> WriteFails /\
    r_sent_count r = sent_count a /\
    r_deferred_count r = deferred_count a /\
    r_bounced_count r = bounced_count a /\
    r_total_messages r = sent_count a + deferred_count a + bounced_count a /\
    r_errors r = errors a /\
    r_mail_loops r = mail_loops a /\
    (r_total_messages r = 0 -> r_success_rate r = 0%Q) /\
    (acc_ok a -> (0 <= r_success_rate r <= 100)%Q) /\
    (queue_times a = [] -> r_avg_queue_time r = 0%Q).
Proof.
  unfold summarize.
  destruct (guarded_avg_ok (queue_times a)) as (aq & -> & Haq). cbn [bind].
  destruct (guarded_rate_ok (sent_count a)
              (sent_count a + deferred_count a + bounced_count a))
    as (sr & -> & Hsr0 & Hsr). cbn [bind].
  destruct (calculate_trends_total h) as [trends ->]. cbn [bind].
  destruct (guarded_div_ok (0 <? sent_count a + deferred_count a + bounced_count a)
              (inject_Z (total_size a))
              (inject_Z (sent_count a + deferred_count a + bounced_count a)))
    as [ams ->].
  { intros E. apply Z.ltb_lt in E. apply inject_Z_nonzero. lia. }
  cbn [bind].
  destruct (guarded_rate_ok (deferred_count a)
              (sent_count a + deferred_count a + bounced_count a))
    as (dr & -> & _ & _). cbn [bind].
  destruct (guarded_div_ok (0 <? sent_count a + deferred_count a + bounced_count a)
              (inject_Z (sent_count a + deferred_count a + bounced_count a))
              (inject_Z (24 * 60)))
    as [tp ->].
  { intros _. apply inject_Z_nonzero. lia. }
  cbn [bind].
  match goal with
  | |- context [save_historical_data ?d ?hd ?ts ?s] =>
      destruct (save_historical_data_cases d hd ts s)
        as [(written & -> & Hwrite)|(-> & Hwrite)]
  end; cbn [bind].
  2:{ left. split; [reflexivity | exact Hwrite]. }
  right. eexists. split; [reflexivity|]. split; [exact Hwrite|].
  cbn [r_sent_count r_deferred_count r_bounced_count r_total_messages r_errors
       r_mail_loops r_success_rate r_avg_queue_time].
  repeat (split; [reflexivity|]).
  split; [exact Hsr0|]. split; [|exact Haq].
  intros (Hs & Hd & Hb & _). apply Hsr. lia.
Qed.

Lemma summarize_ok cfg now st h ix a :
  hwrite st <> WriteFails ->
  exists r,
    summarize cfg now st h ix a = Ok r /\
    r_sent_count r = sent_count a /\
    r_deferred_count r = deferred_count a /\
    r_bounced_count r = bounced_count a /\
    r_total_messages r = sent_count a + deferred_count a + bounced_count a /\
    r_errors r = errors a /\
    r_mail_loops r = mail_loops a /\
    (r_total_messages r = 0 -> r_success_rate r = 0%Q) /\
    (acc_ok a -> (0 <= r_success_rate r <= 100)%Q) /\
    (queue_times a = [] -> r_avg_queue_time r = 0%Q).
Proof.
  intros Hwrite.
  destruct (summarize_result cfg now st h ix a) as [(_ & Hfails)|(r & Hr & _ & H)].
  - contradiction.
  - exists r. split; assumption.
Qed.

Lemma summarize_raises cfg now st h ix a e :
  summarize cfg now st h ix a = Raise e -> e = OSError.
Proof.
  destruct (summarize_result cfg now st h ix a) as [(-> & _)|(r & -> & _)];
    congruence.
Qed.

(** ** C1 and C2: the counters, the rates and the divisions *)

(** C1. Every run of [main] that does not abort on an I/O failure of a
    source or of the history file ends with the status counters summing
    to the total,
    [sent_count + deferred_count + bounced_count = total_messages], and
    with [success_rate] in the closed interval from 0 to 100; no run
    aborts on anything else. *)
Theorem main_counters_sum_and_rate_bounded cfg fs st now :
  match main cfg fs st now with
  | Ok r =>
      r_sent_count r + r_deferred_count r + r_bounced_count r = r_total_messages r /\
      (0 <= r_success_rate r <= 100)%Q
  | Raise e => e = OSError
  end.
Proof.
  unfold main.
  destruct (load_historical_data st) as [h|e] eqn:Eload; cbn [bind].
  2:{ unfold load_historical_data in Eload. destruct (hfile st); congruence. }
  destruct (over_sources fs (LOG_PATHS cfg) _ first_pass_step empty_index)
    as [ix|e] eqn:E1; cbn [bind].
  2:{ eapply over_sources_raises; eassumption. }
  destruct (over_sources fs (LOG_PATHS cfg) _ (second_pass_step ix) empty_acc)
    as [a|e] eqn:E2; cbn [bind].
  2:{ eapply over_sources_raises; eassumption. }
  apply second_pass_ok in E2.
  destruct (summarize_result cfg now st h ix a)
    as [(-> & _)|(r & -> & _ & Hs & Hd & Hb & Ht & _ & _ & _ & Hrange & _)].
  - reflexivity.
  - split; [lia | auto].
Qed.

(** C2. A run of [main] never raises [ZeroDivisionError]: it aborts on an
    I/O failure of a source or of the history file only. When it ends
    with [total_messages = 0], both [success_rate] and [avg_queue_time]
    are 0. *)
Theorem main_rates_zero_without_messages cfg fs st now :
  match main cfg fs st now with
  | Ok r =>
      r_total_messages r = 0 ->
      r_success_rate r = 0%Q /\ r_avg_queue_time r = 0%Q
  | Raise e => e = OSError
  end.
Proof.
  unfold main.
  destruct (load_historical_data st) as [h|e] eqn:Eload; cbn [bind].
  2:{ unfold load_historical_data in Eload. destruct (hfile st); congruence. }
  destruct (over_sources fs (LOG_PATHS cfg) _ first_pass_step empty_index)
    as [ix|e] eqn:E1; cbn [bind].
  2:{ eapply over_sources_raises; eassumption. }
  destruct (over_sources fs (LOG_PATHS cfg) _ (second_pass_step ix) empty_acc)
    as [a|e] eqn:E2; cbn [bind].
  2:{ eapply over_sources_raises; eassumption. }
  apply second_pass_ok in E2. destruct E2 as (Hs & Hd & Hb & Hq & _).
  destruct (summarize_result cfg now st h ix a)
    as [(-> & _)|(r & -> & _ & _ & _ & _ & Ht & _ & _ & Hsr & _ & Haq)];
    [reflexivity|].
  intros Hzero. split; [auto|].
  apply Haq. rewrite Ht in Hzero.
  destruct (queue_times a); [reflexivity|]. simpl in Hq. lia.
Qed.

Lemma main_rates_zero_without_messages_witness :
  exists r,
    main default_config no_logs fresh_store march_10 = Ok r /\
    r_total_messages r = 0 /\
    r_success_rate r = 0%Q /\ r_avg_queue_time r = 0%Q.
Proof.
  pose proof (main_rates_zero_without_messages
                default_config no_logs fresh_store march_10) as H.
  destruct (main default_config no_logs fresh_store march_10) as [r|e] eqn:E.
  - assert (Ht : r_total_messages r = 0).
    { vm_compute in E. injection E as <-. reflexivity. }
    exists r. split; [reflexivity|]. split; [exact Ht|]. exact (H Ht).
  - vm_compute in E. discriminate.
Defined.

(** ** C3: missing and unreadable sources *)

Lemma missing_file_yields_nothing {S : Type} fs logfile dates (body : S -> string -> S) s :
  fs logfile = Missing ->
  for_each dates (fun s date => for_lines (log_lines_today fs logfile date) body s) s
  = Ok s.
Proof.
  intros Hmiss. induction dates as [|date dates IH]; cbn [for_each]; [reflexivity|].
  replace (for_lines (log_lines_today fs logfile date) body s) with (Ok s).
  - exact IH.
  - unfold for_lines, log_lines_today. rewrite Hmiss. reflexivity.
Qed.

Lemma failing_file_raises {S : Type} fs logfile ls date dates (body : S -> string -> S) s :
  fs logfile = Failing ls ->
  for_each (date :: dates)
    (fun s date => for_lines (log_lines_today fs logfile date) body s) s
  = Raise OSError.
Proof.
  intros Hfail. simpl. unfold for_lines, log_lines_today. rewrite Hfail. reflexivity.
Qed.

Lemma failing_source_aborts_pass {S : Type} fs paths logfile ls date dates
    (body : S -> string -> S) s :
  In logfile paths -> fs logfile = Failing ls ->
  over_sources fs paths (date :: dates) body s = Raise OSError.
Proof.
  intros Hin Hfail. unfold over_sources. revert s.
  induction paths as [|p paths IH]; intros s; [destruct Hin|].
  rewrite (for_each_cons p paths).
  destruct (for_each (date :: dates) _ s) as [s1|e] eqn:E; cbn [bind].
  - destruct Hin as [->|Hin].
    + rewrite (failing_file_raises fs logfile ls) in E by assumption. discriminate.
    + apply IH. exact Hin.
  - f_equal.
    apply (for_each_raises (fun e => e = OSError)) in E; [exact E|].
    intros s2 d e2. apply for_lines_raises.
Qed.

(** C3, the claim refuted: with the first log unreadable the run raises,
    although the rotated log is readable and holds a sent line, which a
    run over that log alone counts. *)
Lemma unreadable_source_is_fatal_for_the_run :
  main default_config first_log_unreadable fresh_store march_10 = Raise OSError /\
  exists r, main only_rotated_log first_log_unreadable fresh_store march_10 = Ok r /\
            r_sent_count r = 1.
Proof.
  split; [vm_compute; reflexivity|].
  eexists. split; [vm_compute; reflexivity|]. reflexivity.
Qed.

(** C3, amended. A missing log file is skipped without a trace: a pass
    over the sources goes on with the remaining files as if the missing
    one were not in the list. Any other I/O failure on a file of the
    source list is not caught: it aborts the whole run of [main], and no
    remaining file is processed. *)
Theorem missing_source_skipped_other_failure_aborts :
  (forall (S : Type) fs logfile rest dates (body : S -> string -> S) s,
      fs logfile = Missing ->
      over_sources fs (logfile :: rest) dates body s
      = over_sources fs rest dates body s) /\
  (forall cfg fs st now logfile ls,
      In logfile (LOG_PATHS cfg) -> fs logfile = Failing ls ->
      main cfg fs st now = Raise OSError).
Proof.
  split.
  - intros S fs logfile rest dates body s Hmiss. unfold over_sources.
    rewrite (for_each_cons logfile rest).
    rewrite missing_file_yields_nothing by assumption.
    reflexivity.
  - intros cfg fs st now logfile ls Hin Hfail. unfold main.
    destruct (load_historical_data st) as [h|e] eqn:Eload; cbn [bind].
    + rewrite (failing_source_aborts_pass fs (LOG_PATHS cfg) logfile ls)
        by assumption.
      reflexivity.
    + unfold load_historical_data in Eload. destruct (hfile st); congruence.
Qed.

Lemma missing_source_skipped_other_failure_aborts_witness :
  over_sources no_logs ["/var/log/mail.log"; "/var/log/mail.log.1"] ["2025-03-10"]
               first_pass_step empty_index
  = over_sources no_logs ["/var/log/mail.log.1"] ["2025-03-10"]
                 first_pass_step empty_index /\
  main default_config first_log_unreadable fresh_store march_10 = Raise OSError.
Proof.
  split.
  - apply (proj1 missing_source_skipped_other_failure_aborts). reflexivity.
  - apply (proj2 missing_source_skipped_other_failure_aborts
             default_config first_log_unreadable fresh_store march_10
             "/var/log/mail.log" []).
    + simpl. left. reflexivity.
    + reflexivity.
Defined.

(** ** C8: an empty source list *)

(** What a report that [summarize] returns holds besides the rates. *)
Lemma summarize_inv cfg now st h ix a r :
  summarize cfg now st h ix a = Ok r ->
  save_historical_data now h (r_today_stats r) st = Ok (r_store r) /\
  r_today_stats r
  = stats_of (sent_count a) (deferred_count a) (bounced_count a) (total_size a)
             (r_success_rate r) (r_avg_queue_time r) (r_health_score r)
             (counter_total (auth_failures ix)) (length (mail_loops a)) /\
  r_high_volume_threshold r
  = Qmax 50 (inject_Z (r_total_messages r)
             * high_volume_threshold_pct (ALERT_THRESHOLDS cfg)) /\
  r_compromised_candidates r
  = compromised (r_high_volume_threshold r) (suspicious_senders a).
Proof.
  unfold summarize.
  repeat match goal with
         | |- context [bind (save_historical_data ?d ?hd ?ts ?s) _] =>
             destruct (save_historical_data d hd ts s) eqn:Esave; cbn [bind];
             [|discriminate]
         | |- context [bind ?x _] =>
             match x with
             | bind _ _ => fail 1
             | _ => destruct x; cbn [bind]; [|discriminate]
             end
         | |- context [guarded ?c (bind ?x ?f)] =>
             destruct (guarded c (bind x f)); cbn [bind]; [|discriminate]
         end.
  intros [= <-]. cbn [r_store r_today_stats]. split; [exact Esave|].
  repeat split.
Qed.





(** ** C9: the retained error lines *)

Lemma filter_repeat {A : Type} (f : A -> bool) (x : A) (n : nat) :
  List.filter f (repeat x n) = if f x then repeat x n else [].
Proof.
  induction n as [|n IH]; simpl.
  - destruct (f x); reflexivity.
  - rewrite IH. destruct (f x); reflexivity.
Qed.

(** A pass over the default sources of a host whose only log is [n]
    copies of one line of March 10 folds its body over these copies. *)
Lemma over_sources_repeat {S : Type} (line : string) (n : nat)
    (body : S -> string -> S) (s : S) fs :
  fs "/var/log/mail.log" = Lines (repeat line n) ->
  fs "/var/log/mail.log.1" = Missing ->
  PyStr.startswith line "2025-03-10" = true ->
  PyStr.startswith line "2025-03-09" = false ->
  over_sources fs (LOG_PATHS default_config)
    [Date.strftime_Ymd march_10; Date.strftime_Ymd (Date.minus_days 1 march_10)]
    body s
  = Ok (fold_left body (repeat line n) s).
Proof.
  intros Hlog Hrot Htoday Hyesterday.
  change (Date.strftime_Ymd march_10) with "2025-03-10".
  change (Date.strftime_Ymd (Date.minus_days 1 march_10)) with "2025-03-09".
  unfold over_sources. cbn [LOG_PATHS default_config].
  rewrite for_each_cons.
  assert (Hfirst :
    for_each ["2025-03-10"; "2025-03-09"]
      (fun s date => for_lines (log_lines_today fs "/var/log/mail.log" date) body s) s
    = Ok (fold_left body (repeat line n) s)).
  { cbn [for_each]. unfold for_lines, log_lines_today. rewrite Hlog.
    cbn [yielded raised]. rewrite !filter_repeat, Htoday, Hyesterday.
    reflexivity. }
  rewrite Hfirst. cbn [bind].
  rewrite for_each_cons.
  rewrite missing_file_yields_nothing by assumption.
  reflexivity.
Qed.

Lemma deferred_step ix a line :
  PyStr.contains " status=sent " line = false ->
  PyStr.contains "status=deferred" line = true ->
  errors (second_pass_step ix a line) = (errors a ++ [PyStr.strip line])%list.
Proof.
  intros Hsent Hdef. unfold second_pass_step. rewrite Hsent, Hdef. reflexivity.
Qed.

Lemma errors_after_deferred ix line n a :
  PyStr.contains " status=sent " line = false ->
  PyStr.contains "status=deferred" line = true ->
  length (errors (fold_left (second_pass_step ix) (repeat line n) a))
  = (length (errors a) + n)%nat.
Proof.
  intros Hsent Hdef. revert a.
  induction n as [|n IH]; intros a; simpl; [lia|].
  rewrite IH, deferred_step, length_app by assumption. simpl. lia.
Qed.

Lemma main_deferred_log (n : nat) :
  exists r, main default_config (deferred_log n) fresh_store march_10 = Ok r /\
            length (r_errors r) = n.
Proof.
  unfold main. cbn [load_historical_data fresh_store hfile bind].
  rewrite (over_sources_repeat deferred_line n) by reflexivity. cbn [bind].
  rewrite (over_sources_repeat deferred_line n) by reflexivity. cbn [bind].
  match goal with
  | |- context [summarize ?c ?d ?st ?h ?ix ?a] =>
      destruct (summarize_ok c d st h ix a ltac:(discriminate))
        as (r & -> & _ & _ & _ & _ & He & _)
  end.
  exists r. split; [reflexivity|].
  rewrite He, errors_after_deferred by reflexivity. reflexivity.
Qed.

(** C9, the claim refuted: no constant bounds the error lines a run
    retains. *)
Lemma retained_error_lines_are_unbounded :
  ~ exists B : nat,
      forall cfg fs st now r,
        main cfg fs st now = Ok r -> (length (r_errors r) <= B)%nat.
Proof.
  intros [B HB].
  destruct (main_deferred_log (Datatypes.S B)) as (r & Hr & Hlen).
  specialize (HB _ _ _ _ _ Hr). lia.
Qed.

(** C9, amended. The error lines a run retains are not bounded by a
    constant: when the run ends, [errors] holds one line for every
    deferred and every bounced or rejected line, so its length is
    [deferred_count + bounced_count]. Only the slice the reports show,
    [errors[-10:]], is bounded: it has at most 10 lines. *)
Theorem retained_error_lines_count cfg fs st now :
  match main cfg fs st now with
  | Ok r =>
      Z.of_nat (length (r_errors r)) = r_deferred_count r + r_bounced_count r /\
      (length (recent_errors r) <= 10)%nat
  | Raise e => e = OSError
  end.
Proof.
  unfold main.
  destruct (load_historical_data st) as [h|e] eqn:Eload; cbn [bind].
  2:{ unfold load_historical_data in Eload. destruct (hfile st); congruence. }
  destruct (over_sources fs (LOG_PATHS cfg) _ first_pass_step empty_index)
    as [ix|e] eqn:E1; cbn [bind].
  2:{ eapply over_sources_raises; eassumption. }
  destruct (over_sources fs (LOG_PATHS cfg) _ (second_pass_step ix) empty_acc)
    as [a|e] eqn:E2; cbn [bind].
  2:{ eapply over_sources_raises; eassumption. }
  apply second_pass_ok in E2. destruct E2 as (_ & _ & _ & _ & Herr).
  destruct (summarize_result cfg now st h ix a)
    as [(-> & _)|(r & -> & _ & _ & Hd & Hb & _ & He & _)];
    [reflexivity|].
  split.
  - rewrite He, Hd, Hb. exact Herr.
  - unfold recent_errors. rewrite length_last_n. lia.
Qed.

(** ** C10: the unused threshold *)

(** C10. Two configurations that differ in [min_hourly_volume] only give
    the same run on the same inputs: the same exception, or the same
    report, with the same alerts, the same snapshot of the day and the
    same history store. In particular the run is the one of the
    configuration with a threshold of 0, below which no hour falls, so no
    alert is due to an hour below [min_hourly_volume]. *)
Theorem min_hourly_volume_does_not_interfere c1 c2 fs st now :
  same_but_min_hourly_volume c1 c2 ->
  main c1 fs st now = main c2 fs st now /\
  main c1 fs st now = main (with_min_hourly_volume 0 c1) fs st now.
Proof.
  destruct c1 as [paths1 [sr1 qt1 af1 hv1 mh1 lo1 sz1 dr1] hvm1].
  destruct c2 as [paths2 [sr2 qt2 af2 hv2 mh2 lo2 sz2 dr2] hvm2].
  unfold same_but_min_hourly_volume. cbn.
  intros (-> & -> & -> & -> & -> & -> & -> & -> & ->).
  split; reflexivity.
Qed.

Lemma min_hourly_volume_does_not_interfere_witness :
  main default_config (deferred_log 3) fresh_store march_10
  = main (with_min_hourly_volume 1000 default_config) (deferred_log 3)
         fresh_store march_10 /\
  main default_config (deferred_log 3) fresh_store march_10
  = main (with_min_hourly_volume 0 default_config) (deferred_log 3)
         fresh_store march_10.
Proof.
  apply (min_hourly_volume_does_not_interfere
           default_config (with_min_hourly_volume 1000 default_config)).
  unfold same_but_min_hourly_volume. simpl. repeat split; reflexivity.
Defined.

(** ** C5: the direction of a trend *)

Lemma direction_of_percentage (p recent older : Q) :
  direction_matches
    {| direction := if Qltb 5 p then dir_up
                    else if Qltb p (-5) then dir_down else dir_flat;
       percentage := p;
       recent_avg := recent;
       baseline_avg := older |}.
Proof.
  unfold direction_matches. cbn [direction percentage].
  destruct (Qltb 5 p) eqn:Eup; [apply Qltb_lt in Eup|apply Qltb_ge in Eup].
  2: destruct (Qltb p (-5)) eqn:Edown;
       [apply Qltb_lt in Edown|apply Qltb_ge in Edown].
  all: split; [|split];
    (split; intros Hdir;
     [try discriminate Hdir; try lra | try reflexivity; try lra]).
Qed.

Lemma trend_of_metric_directions h dates trends metric trends' :
  (forall m t, trends !! m = Some t -> direction_matches t) ->
  trend_of_metric h dates trends metric = Ok trends' ->
  forall m t, trends' !! m = Some t -> direction_matches t.
Proof.
  intros Hinv. unfold trend_of_metric.
  destruct (2 <=? length _)%nat; [|intros [= <-]; exact Hinv].
  destruct (truediv _ _) as [recent|]; cbn [bind]; [|discriminate].
  match goal with
  | |- context [bind ?x _] => destruct x as [older|]; cbn [bind]; [|discriminate]
  end.
  destruct (Qltb 0 older); [|intros [= <-]; exact Hinv].
  destruct (truediv _ _) as [q|]; cbn [bind]; [|discriminate].
  intros [= <-] m t. rewrite lookup_insert.
  case_decide.
  - intros [= <-]. apply direction_of_percentage.
  - apply Hinv.
Qed.

(** C5. For every history and every metric for which [calculate_trends]
    produces a trend, the direction is the up arrow exactly when the
    percentage is strictly above 5, the down arrow exactly when it is
    strictly below -5, and the flat arrow otherwise; a percentage of
    exactly 5 or exactly -5 is flat. *)
Theorem trend_direction_boundaries h trends metric t :
  calculate_trends h = Ok trends ->
  trends !! metric = Some t ->
  direction_matches t /\
  ((percentage t == 5)%Q -> direction t = dir_flat) /\
  ((percentage t == -5)%Q -> direction t = dir_flat).
Proof.
  intros Hcalc Hlook.
  assert (Hm : direction_matches t).
  { revert metric t Hlook. unfold calculate_trends in Hcalc.
    destruct (size h <? 2)%nat.
    { injection Hcalc as <-. intros m t. rewrite lookup_empty. discriminate. }
    destruct (length _ <? 2)%nat.
    { injection Hcalc as <-. intros m t. rewrite lookup_empty. discriminate. }
    revert Hcalc.
    apply (for_each_invariant
             (fun trends => forall m t, trends !! m = Some t -> direction_matches t)).
    - intros s x s' Hs Hstep. eapply trend_of_metric_directions; eassumption.
    - intros m t. rewrite lookup_empty. discriminate. }
  split; [exact Hm|].
  destruct Hm as (_ & _ & Hflat).
  split; intros Heq; apply Hflat; rewrite Heq; split; lra.
Qed.

Lemma trend_direction_boundaries_witness :
  exists trends t,
    calculate_trends two_days = Ok trends /\
    trends !! "sent_count" = Some t /\
    (percentage t == 5)%Q /\
    direction t = dir_flat.
Proof.
  destruct (calculate_trends two_days) as [trends|e] eqn:Ecalc;
    [|vm_compute in Ecalc; discriminate].
  destruct (trends !! "sent_count") as [t|] eqn:Elook;
    [|vm_compute in Ecalc; injection Ecalc as <-; vm_compute in Elook; discriminate].
  assert (Hpct : (percentage t == 5)%Q).
  { vm_compute in Ecalc. injection Ecalc as <-.
    vm_compute in Elook. injection Elook as <-. reflexivity. }
  exists trends, t. split; [reflexivity|]. split; [exact Elook|].
  split; [exact Hpct|].
  exact (proj1 (proj2 (trend_direction_boundaries two_days trends "sent_count" t
                         Ecalc Elook)) Hpct).
Defined.

(** ** C6: mail loops *)

Lemma detect_mail_loop_spec (queue_time : Q) (sender recipient : string) :
  (loop_condition queue_time sender recipient ->
   detect_mail_loop queue_time (Some sender) (Some recipient)
   = [if String.eqb sender recipient
      then "Self-loop: " ++ sender
      else "Internal loop: " ++ sender ++ " → " ++ recipient]) /\
  (~ loop_condition queue_time sender recipient ->
   detect_mail_loop queue_time (Some sender) (Some recipient) = []).
Proof.
  unfold loop_condition, detect_mail_loop.
  destruct (Qltb queue_time (PyStr.float_of "0.1")) eqn:Efast;
    [apply Qltb_lt in Efast | apply Qltb_ge in Efast].
  - destruct (String.eqb sender recipient) eqn:Esame.
    + split; [reflexivity|]. apply String.eqb_eq in Esame. tauto.
    + apply String.eqb_neq in Esame.
      destruct (String.eqb (get_domain sender) (get_domain recipient)) eqn:Edom;
        [apply String.eqb_eq in Edom | apply String.eqb_neq in Edom];
        (destruct (String.eqb (get_domain sender) "eusd.org") eqn:Eint;
         [apply String.eqb_eq in Eint | apply String.eqb_neq in Eint]);
        cbn [andb]; split; try reflexivity.
      all: try (intros (_ & [Hs | [Hs Hr]]); congruence).
      intros Hno. exfalso. apply Hno. split; [exact Efast|].
      right. split; congruence.
  - split; [|reflexivity]. intros [Hfast _].
    exfalso. exact (Qlt_not_le _ _ Hfast Efast).
Qed.

(** What [float] makes of the texts of the sample delays. *)
Example float_of_a_tenth :
  (PyStr.float_of "0.1" == 3602879701896397 # 36028797018963968)%Q /\
  PyStr.float_of "0.09999999999999999999" = PyStr.float_of "0.1" /\
  (PyStr.float_of "0.05" == 3602879701896397 # 72057594037927936)%Q /\
  (PyStr.float_of "1.2" == 5404319552844595 # 4503599627370496)%Q /\
  (PyStr.float_of "12" == 12)%Q.
Proof. repeat split; vm_compute; reflexivity. Qed.

(** C6, the claim refuted, twice. A delay written just below a tenth of a
    second is rounded by [float] to the float [0.1], which is not below
    itself: the condition of the claim holds of the line and no entry is
    appended. And an address of the internal domain that writes to itself
    gives a [Self-loop] entry, not an [Internal loop] one, although both
    domains are the internal domain. *)
Lemma mail_loop_claim_fails_on_rounding_and_on_self_loops :
  (PyStr.contains " status=sent " almost_fast_line = true /\
   Re.search1 Pat.from_addr almost_fast_line = Some "a@eusd.org" /\
   Re.search1 Pat.to_addr almost_fast_line = Some "b@eusd.org" /\
   Re.search1 Pat.delay almost_fast_line = Some "0.09999999999999999999" /\
   claimed_loop_condition "0.09999999999999999999" "a@eusd.org" "b@eusd.org" /\
   mail_loops (second_pass_step empty_index empty_acc almost_fast_line) = []) /\
  (PyStr.contains " status=sent " self_addressed_line = true /\
   Re.search1 Pat.from_addr self_addressed_line = Some "a@eusd.org" /\
   Re.search1 Pat.to_addr self_addressed_line = Some "a@eusd.org" /\
   Re.search1 Pat.delay self_addressed_line = Some "0.05" /\
   claimed_loop_condition "0.05" "a@eusd.org" "a@eusd.org" /\
   get_domain "a@eusd.org" = "eusd.org" /\
   mail_loops (second_pass_step empty_index empty_acc self_addressed_line)
   = ["Self-loop: a@eusd.org"] /\
   mail_loops (second_pass_step empty_index empty_acc self_addressed_line)
   <> ["Internal loop: a@eusd.org → a@eusd.org"]).
Proof.
  split.
  - repeat (split; [vm_compute; reflexivity|]).
    split; [|vm_compute; reflexivity].
    split; [vm_compute; reflexivity|]. right. split; vm_compute; reflexivity.
  - repeat (split; [vm_compute; reflexivity|]).
    split; [|split; [vm_compute; reflexivity|]].
    + split; [vm_compute; reflexivity|]. left. reflexivity.
    + split; [vm_compute; reflexivity|]. vm_compute. discriminate.
Qed.

(** C6, amended. On a sent line whose sender, recipient and delay are
    parsed, the second pass appends one entry to [mail_loops] exactly
    when the delay, as the float that [float] makes of its text, is below
    the float [0.1], and either the sender is the recipient or the
    domains of both are the internal domain [eusd.org]; otherwise it
    appends none. The entry reads [Self-loop: <sender>] when the sender is
    the recipient, whatever the domain, and
    [Internal loop: <sender> → <recipient>] when the two addresses
    differ. *)
Theorem mail_loop_entry_on_sent_line ix a line sender recipient delay :
  PyStr.contains " status=sent " line = true ->
  Re.search1 Pat.from_addr line = Some sender ->
  Re.search1 Pat.to_addr line = Some recipient ->
  Re.search1 Pat.delay line = Some delay ->
  (loop_condition (PyStr.float_of delay) sender recipient ->
   exists entry,
     mail_loops (second_pass_step ix a line) = (mail_loops a ++ [entry])%list /\
     (sender <> recipient ->
      entry = "Internal loop: " ++ sender ++ " → " ++ recipient) /\
     (sender = recipient -> entry = "Self-loop: " ++ sender)) /\
  (~ loop_condition (PyStr.float_of delay) sender recipient ->
   mail_loops (second_pass_step ix a line) = mail_loops a).
Proof.
  intros Hsent Hfrom Hto Hdelay.
  unfold second_pass_step. rewrite Hsent, Hfrom, Hto, Hdelay. cbn [mail_loops].
  destruct (detect_mail_loop_spec (PyStr.float_of delay) sender recipient)
    as [Hyes Hno].
  split.
  - intros Hloop. rewrite (Hyes Hloop). eexists. split; [reflexivity|].
    split.
    + intros Hne. apply String.eqb_neq in Hne. rewrite Hne. reflexivity.
    + intros Heq. apply String.eqb_eq in Heq. rewrite Heq. reflexivity.
  - intros Hnoloop. rewrite (Hno Hnoloop). apply app_nil_r.
Qed.

Lemma mail_loop_entry_on_sent_line_witness :
  mail_loops (second_pass_step empty_index empty_acc internal_fast_line)
  = ["Internal loop: a@eusd.org → b@eusd.org"].
Proof.
  destruct (mail_loop_entry_on_sent_line empty_index empty_acc internal_fast_line
              "a@eusd.org" "b@eusd.org" "0.05"
              eq_refl eq_refl eq_refl eq_refl) as [Hloop _].
  destruct Hloop as (entry & Happend & Hinternal & _).
  - split; [vm_compute; reflexivity|]. right. split; reflexivity.
  - rewrite Happend, Hinternal by discriminate. reflexivity.
Defined.

(** ** C7: compromised-account candidates *)

(** What the source tests: a sender is a candidate exactly when its count
    of sent lines is strictly above the threshold and its address
    contains the text [@eusd.org]. *)
Lemma compromised_spec (thr : Q) (suspicious : gmap string Z) (sender : string) :
  In sender (compromised thr suspicious) <->
  exists count,
    suspicious !! sender = Some count /\
    (thr < inject_Z count)%Q /\
    PyStr.contains "@eusd.org" sender = true.
Proof.
  unfold compromised. rewrite in_map_iff. split.
  - intros ([s c] & <- & Hin). apply filter_In in Hin. destruct Hin as [Hin Htest].
    apply andb_prop in Htest. destruct Htest as [Hcount Hdom].
    exists c. simpl in *. split; [|split].
    + apply elem_of_map_to_list. apply list_elem_of_In. exact Hin.
    + apply Qltb_lt. exact Hcount.
    + exact Hdom.
  - intros (c & Hlook & Hcount & Hdom). exists (sender, c). split; [reflexivity|].
    apply filter_In. split.
    + apply list_elem_of_In. apply elem_of_map_to_list. exact Hlook.
    + simpl. apply andb_true_intro. split; [apply Qltb_lt; exact Hcount | exact Hdom].
Qed.

Lemma prefix_cons (a : ascii) (p s : string) (b : ascii) :
  String.prefix (String a p) (String b s)
  = if Ascii.eqb a b then String.prefix p s else false.
Proof.
  cbn [String.prefix]. destruct (ascii_dec a b) as [->|Hne].
  - rewrite Ascii.eqb_refl. reflexivity.
  - apply Ascii.eqb_neq in Hne. rewrite Hne. reflexivity.
Qed.

Lemma prefix_append (p s : string) : String.prefix p (p ++ s) = true.
Proof.
  induction p as [|a p IH]; [destruct s; reflexivity|].
  change (String a p ++ s) with (String a (p ++ s)).
  rewrite prefix_cons, Ascii.eqb_refl. exact IH.
Qed.

Lemma contains_append (needle pre post : string) :
  PyStr.contains needle (pre ++ needle ++ post) = true.
Proof.
  induction pre as [|a pre IH].
  - change ("" ++ needle ++ post) with (needle ++ post).
    destruct (needle ++ post) eqn:E; cbn [PyStr.contains];
      rewrite <- E, prefix_append; reflexivity.
  - change (String a pre ++ needle ++ post) with (String a (pre ++ needle ++ post)).
    cbn [PyStr.contains]. rewrite IH. apply orb_true_r.
Qed.

Lemma contains_char_cons (sep c : ascii) (s : string) :
  PyStr.contains (String sep "") (String c s)
  = Ascii.eqb sep c || PyStr.contains (String sep "") s.
Proof.
  cbn [PyStr.contains]. rewrite prefix_cons.
  destruct (Ascii.eqb sep c); [|reflexivity].
  destruct s; reflexivity.
Qed.

Lemma after_last_without (sep : ascii) (s : string) :
  PyStr.contains (String sep "") s = false -> PyStr.after_last sep s = s.
Proof.
  destruct s as [|c s]; [reflexivity|].
  rewrite contains_char_cons. intros H. apply orb_false_elim in H.
  destruct H as [Hc Hs]. cbn [PyStr.after_last].
  rewrite Ascii.eqb_sym, Hc, Hs. reflexivity.
Qed.

Lemma after_last_split (sep : ascii) (s : string) :
  PyStr.contains (String sep "") s = true ->
  exists pre, s = pre ++ String sep (PyStr.after_last sep s).
Proof.
  induction s as [|c s IH].
  - discriminate.
  - rewrite contains_char_cons. intros H. cbn [PyStr.after_last].
    destruct (PyStr.contains (String sep "") s) eqn:Hs.
    + destruct (IH eq_refl) as [pre Hpre].
      exists (String c pre).
      change (String c pre ++ ?x) with (String c (pre ++ x)).
      destruct (Ascii.eqb c sep); rewrite <- Hpre; reflexivity.
    + rewrite orb_false_r in H. rewrite Ascii.eqb_sym in H. rewrite H.
      apply Ascii.eqb_eq in H. subst c.
      exists "". rewrite after_last_without by assumption. reflexivity.
Qed.

(** An address whose domain is the internal one contains the marker the
    source looks for; the converse is what fails. *)
Lemma internal_sender_has_marker (sender : string) :
  get_domain sender = "eusd.org" -> PyStr.contains "@eusd.org" sender = true.
Proof.
  unfold get_domain.
  destruct (String.eqb sender "" || negb (PyStr.contains "@" sender)) eqn:E;
    [discriminate|].
  apply orb_false_elim in E. destruct E as [_ E]. apply negb_false_iff in E.
  intros Hdom. destruct (after_last_split "@" sender E) as [pre Hpre].
  rewrite Hdom in Hpre. rewrite Hpre.
  change (String "@" "eusd.org") with ("@eusd.org" ++ "").
  apply contains_append.
Qed.

Lemma internal_heavy_sender_is_flagged thr (suspicious : gmap string Z) sender count :
  suspicious !! sender = Some count ->
  (thr < inject_Z count)%Q ->
  get_domain sender = "eusd.org" ->
  In sender (compromised thr suspicious).
Proof.
  intros Hlook Hcount Hdom. apply compromised_spec.
  exists count. auto using internal_sender_has_marker.
Qed.

(** C7, the failing input: 51 sent lines from an address of the domain
    [eusd.org.example.net]. The run flags the sender although its domain
    is not the internal one. *)
Theorem lookalike_sender_is_flagged :
  exists r,
    main default_config lookalike_log fresh_store march_10 = Ok r /\
    r_total_messages r = 51 /\
    r_high_volume_threshold r = 50%Q /\
    r_compromised_candidates r = ["eve@eusd.org.example.net"] /\
    get_domain "eve@eusd.org.example.net" = "eusd.org.example.net".
Proof.
  eexists. split; [vm_compute; reflexivity|].
  repeat split.
Qed.

(** ** C4: pruning the history

    The order of the strings [strftime] writes is the order of the
    calendar, and going back a day lowers the ordinal by one. *)

Lemma digit_compare (a b : Z) :
  Ascii.compare (Date.digit a) (Date.digit b) = (a mod 10 ?= b mod 10).
Proof.
  unfold Date.digit.
  assert (Ha : 0 <= a mod 10 < 10) by (apply Z.mod_pos_bound; lia).
  assert (Hb : 0 <= b mod 10 < 10) by (apply Z.mod_pos_bound; lia).
  generalize dependent (a mod 10). generalize dependent (b mod 10).
  intros y Hy x Hx.
  assert (Ex : x = 0 \/ x = 1 \/ x = 2 \/ x = 3 \/ x = 4 \/ x = 5 \/ x = 6 \/ x = 7
               \/ x = 8 \/ x = 9) by lia.
  assert (Ey : y = 0 \/ y = 1 \/ y = 2 \/ y = 3 \/ y = 4 \/ y = 5 \/ y = 6 \/ y = 7
               \/ y = 8 \/ y = 9) by lia.
  clear Hx Hy.
  repeat (destruct Ex as [-> | Ex]); try subst x;
    repeat (destruct Ey as [-> | Ey]); try subst y; reflexivity.
Qed.

Lemma four_digits (y : Z) :
  0 <= y <= 9999 ->
  y = 1000 * ((y / 1000) mod 10) + 100 * ((y / 100) mod 10)
      + 10 * ((y / 10) mod 10) + y mod 10.
Proof.
  intros Hy.
  pose proof (Z.div_mod y 10 ltac:(lia)) as H0.
  pose proof (Z.div_mod (y / 10) 10 ltac:(lia)) as H1.
  pose proof (Z.div_mod (y / 100) 10 ltac:(lia)) as H2.
  rewrite (Z.div_div y 10 10) in H1 by lia.
  rewrite (Z.div_div y 100 10) in H2 by lia.
  change (10 * 10) with 100 in H1. change (100 * 10) with 1000 in H2.
  assert (H3 : (y / 1000) mod 10 = y / 1000).
  { apply Z.mod_small. split; [apply Z.div_pos; lia|].
    apply Z.div_lt_upper_bound; lia. }
  lia.
Qed.

Lemma two_digits (m : Z) :
  0 <= m <= 99 -> m = 10 * ((m / 10) mod 10) + m mod 10.
Proof.
  intros Hm.
  pose proof (Z.div_mod m 10 ltac:(lia)) as H0.
  assert (H1 : (m / 10) mod 10 = m / 10).
  { apply Z.mod_small. split; [apply Z.div_pos; lia|].
    apply Z.div_lt_upper_bound; lia. }
  lia.
Qed.

Lemma strftime_compare (c d : Date.date) :
  0 <= Date.year c <= 9999 -> 0 <= Date.month c <= 99 -> 0 <= Date.day c <= 99 ->
  0 <= Date.year d <= 9999 -> 0 <= Date.month d <= 99 -> 0 <= Date.day d <= 99 ->
  String.compare (Date.strftime_Ymd c) (Date.strftime_Ymd d) = (key c ?= key d).
Proof.
  destruct c as [y1 m1 d1], d as [y2 m2 d2]. unfold key. cbn [Date.year Date.month Date.day].
  intros Hy1 Hm1 Hd1 Hy2 Hm2 Hd2.
  unfold Date.strftime_Ymd, Date.pad4, Date.pad2. cbn [Date.year Date.month Date.day].
  cbv beta iota fix delta [String.append String.compare].
  rewrite !digit_compare.
  change (Ascii.compare "-" "-") with Eq. cbv iota.
  pose proof (four_digits y1 Hy1) as Ey1. pose proof (four_digits y2 Hy2) as Ey2.
  pose proof (two_digits m1 Hm1) as Em1. pose proof (two_digits m2 Hm2) as Em2.
  pose proof (two_digits d1 Hd1) as Ed1. pose proof (two_digits d2 Hd2) as Ed2.
  repeat match goal with
         | |- context [Z.modulo ?x 10] =>
             let Hb := fresh "Hb" in
             pose proof (Z.mod_pos_bound x 10 ltac:(lia)) as Hb;
             generalize dependent (Z.modulo x 10); intros
         end.
  symmetry.
  repeat match goal with
         | |- context [Z.compare ?x ?y = match Z.compare ?a ?b with _ => _ end] =>
             destruct (Z.compare_spec a b)
         end;
    first [apply Z.compare_eq_iff | apply Z.compare_lt_iff | apply Z.compare_gt_iff];
    lia.
Qed.

Lemma div_step (n y : Z) :
  0 < n -> y / n = (y - 1) / n + (if y mod n =? 0 then 1 else 0).
Proof.
  intros Hn.
  pose proof (Z.div_mod y n ltac:(lia)) as Hy.
  pose proof (Z.mod_pos_bound y n Hn) as Hr.
  destruct (Z.eqb_spec (y mod n) 0) as [E|E].
  - rewrite <- (Z.div_unique (y - 1) n (y / n - 1) (n - 1)); lia.
  - rewrite <- (Z.div_unique (y - 1) n (y / n) (y mod n - 1)); lia.
Qed.

Lemma mod_of_multiple (n m y : Z) :
  0 < n -> 0 < m -> (n | m) -> y mod m = 0 -> y mod n = 0.
Proof.
  intros Hn Hm Hdiv Hy.
  apply Z.mod_divide; [lia|].
  apply Z.divide_trans with m; [exact Hdiv|].
  apply Z.mod_divide; [lia | exact Hy].
Qed.

Lemma days_before_year_succ (y : Z) :
  Date.days_before_year (y + 1) = Date.days_before_year y + 365 + leap_day y.
Proof.
  unfold Date.days_before_year, leap_day, Date.is_leap.
  replace (y + 1 - 1) with y by lia.
  rewrite (div_step 4 y), (div_step 100 y), (div_step 400 y) by lia.
  pose proof (mod_of_multiple 4 100 y ltac:(lia) ltac:(lia) ltac:(exists 25; lia)) as H4.
  pose proof (mod_of_multiple 100 400 y ltac:(lia) ltac:(lia) ltac:(exists 4; lia)) as H100.
  destruct (Z.eqb_spec (y mod 4) 0), (Z.eqb_spec (y mod 100) 0),
    (Z.eqb_spec (y mod 400) 0); cbn [andb orb negb]; lia.
Qed.

Lemma days_before_year_mono (y1 y2 : Z) :
  y1 <= y2 -> Date.days_before_year y1 <= Date.days_before_year y2.
Proof.
  intros Hle.
  replace y2 with (y1 + Z.of_nat (Z.to_nat (y2 - y1))) by lia.
  induction (Z.to_nat (y2 - y1)) as [|n IH].
  - rewrite Z.add_0_r. lia.
  - replace (y1 + Z.of_nat (Datatypes.S n)) with (y1 + Z.of_nat n + 1) by lia.
    rewrite days_before_year_succ. unfold leap_day.
    destruct (Date.is_leap _); lia.
Qed.

Lemma month_cases (m : Z) :
  1 <= m <= 12 ->
  m = 1 \/ m = 2 \/ m = 3 \/ m = 4 \/ m = 5 \/ m = 6 \/ m = 7 \/ m = 8 \/ m = 9
  \/ m = 10 \/ m = 11 \/ m = 12.
Proof. lia. Qed.

Ltac each_month H :=
  apply month_cases in H;
  repeat (destruct H as [-> | H]); try subst.

Ltac month_table :=
  unfold Date.days_before_month, Date.days_in_month, leap_day;
  destruct (Date.is_leap _); cbv - [Z.le Z.lt]; lia.

Lemma days_before_month_succ (y m : Z) :
  1 <= m < 12 ->
  Date.days_before_month y (m + 1)
  = Date.days_before_month y m + Date.days_in_month y m.
Proof.
  intros Hm. assert (Hm' : 1 <= m <= 12) by lia. each_month Hm'; try lia; month_table.
Qed.

Lemma days_before_month_bounds (y m : Z) :
  1 <= m <= 12 ->
  0 <= Date.days_before_month y m /\
  Date.days_before_month y m + Date.days_in_month y m <= 365 + leap_day y /\
  28 <= Date.days_in_month y m <= 31.
Proof.
  intros Hm. each_month Hm; month_table.
Qed.

Lemma days_before_month_mono (y m1 m2 : Z) :
  1 <= m1 -> m1 < m2 -> m2 <= 12 ->
  Date.days_before_month y m1 + Date.days_in_month y m1
  <= Date.days_before_month y m2.
Proof.
  intros H1 Hlt H2.
  assert (Hm1 : 1 <= m1 <= 12) by lia. assert (Hm2 : 1 <= m2 <= 12) by lia.
  each_month Hm1; each_month Hm2; try lia; month_table.
Qed.

Lemma toordinal_strict (c d : Date.date) :
  well_formed c -> well_formed d -> key c < key d ->
  Date.toordinal c < Date.toordinal d.
Proof.
  destruct c as [y1 m1 d1], d as [y2 m2 d2].
  unfold well_formed, key, Date.toordinal. cbn [Date.year Date.month Date.day].
  intros [Hm1 Hd1] [Hm2 Hd2] Hlt.
  pose proof (days_before_month_bounds y1 m1 Hm1) as (B1 & B2 & B3).
  pose proof (days_before_month_bounds y2 m2 Hm2) as (C1 & C2 & C3).
  assert (Hcases : y1 < y2 \/ (y1 = y2 /\ (m1 < m2 \/ (m1 = m2 /\ d1 < d2)))) by lia.
  destruct Hcases as [Hy | [-> [Hm | [-> Hd]]]].
  - pose proof (days_before_year_succ y1) as Hs.
    pose proof (days_before_year_mono (y1 + 1) y2 ltac:(lia)) as Hmono.
    lia.
  - pose proof (days_before_month_mono y2 m1 m2 ltac:(lia) Hm ltac:(lia)). lia.
  - lia.
Qed.

Lemma prev_day_spec (d : Date.date) :
  well_formed d ->
  Date.toordinal (Date.prev_day d) = Date.toordinal d - 1 /\
  well_formed (Date.prev_day d) /\
  Date.year d - 1 <= Date.year (Date.prev_day d) <= Date.year d.
Proof.
  destruct d as [y m dd]. unfold well_formed, Date.prev_day, Date.toordinal.
  cbn [Date.year Date.month Date.day]. intros [Hm Hd].
  destruct (Z.ltb_spec 1 dd) as [Hday|Hday]; cbn [Date.year Date.month Date.day].
  - lia.
  - assert (dd = 1) by lia. subst dd.
    destruct (Z.ltb_spec 1 m) as [Hmonth|Hmonth]; cbn [Date.year Date.month Date.day].
    + pose proof (days_before_month_succ y (m - 1) ltac:(lia)) as Hsucc.
      replace (m - 1 + 1) with m in Hsucc by lia.
      pose proof (days_before_month_bounds y (m - 1) ltac:(lia)) as (_ & _ & Hdim).
      lia.
    + assert (m = 1) by lia. subst m.
      pose proof (days_before_year_succ (y - 1)) as Hyear.
      replace (y - 1 + 1) with y in Hyear by lia.
      assert (H12 : Date.days_before_month (y - 1) 12 = 334 + leap_day (y - 1))
        by month_table.
      assert (H1 : Date.days_before_month y 1 = 0) by month_table.
      assert (H31 : Date.days_in_month (y - 1) 12 = 31) by month_table.
      lia.
Qed.

Lemma minus_days_spec (n : nat) (d : Date.date) :
  well_formed d ->
  Date.toordinal (Date.minus_days n d) = Date.toordinal d - Z.of_nat n /\
  well_formed (Date.minus_days n d) /\
  Date.year d - Z.of_nat n <= Date.year (Date.minus_days n d) <= Date.year d.
Proof.
  intros Hd. unfold Date.minus_days.
  induction n as [|n (IHo & IHw & IHy)].
  - cbn [Nat.iter nat_rect]. split; [|split]; [lia | exact Hd | lia].
  - change (Nat.iter (Datatypes.S n) Date.prev_day d)
      with (Date.prev_day (Nat.iter n Date.prev_day d)).
    destruct (prev_day_spec _ IHw) as (Ho & Hw & Hy).
    split; [|split]; [lia | exact Hw | lia].
Qed.

Lemma valid_well_formed (d : Date.date) :
  Date.valid d = true -> well_formed d /\ 1 <= Date.year d <= 9999.
Proof.
  unfold Date.valid, well_formed. rewrite !andb_true_iff, !Z.leb_le. lia.
Qed.

Lemma well_formed_key_bounds (d : Date.date) :
  well_formed d -> 0 <= Date.month d <= 99 /\ 0 <= Date.day d <= 99.
Proof.
  intros [Hm Hd].
  pose proof (days_before_month_bounds (Date.year d) _ Hm) as (_ & _ & Hdim). lia.
Qed.

(** String order on formatted dates is the order of the calendar. *)
Lemma strftime_leb_ordinal (c d : Date.date) :
  well_formed c -> well_formed d ->
  0 <= Date.year c <= 9999 -> 0 <= Date.year d <= 9999 ->
  String.leb (Date.strftime_Ymd c) (Date.strftime_Ymd d) = true <->
  Date.toordinal c <= Date.toordinal d.
Proof.
  intros Hc Hd Hyc Hyd.
  destruct (well_formed_key_bounds c Hc) as [Hmc Hdc].
  destruct (well_formed_key_bounds d Hd) as [Hmd Hdd].
  unfold String.leb. rewrite strftime_compare by assumption.
  destruct (Z.compare_spec (key c) (key d)) as [Heq|Hlt|Hgt].
  - split; [intros _|reflexivity].
    assert (Hsame : c = d).
    { destruct c, d. unfold key in Heq. cbn [Date.year Date.month Date.day] in *.
      f_equal; lia. }
    rewrite Hsame. lia.
  - split; [intros _|reflexivity].
    pose proof (toordinal_strict c d Hc Hd Hlt). lia.
  - split; [discriminate|].
    pose proof (toordinal_strict d c Hd Hc Hgt). lia.
Qed.

(** C4. When [save_historical_data] writes the history file, the file
    holds today's entry, and every key of it that is the ISO text of a
    calendar date is at most 30 days before the current date: its
    ordinal is at least the ordinal of today minus 30. The current date
    is any date whose year [strftime] writes with four digits and of which
    30 days back is still such a date; when the write is denied the file
    is left as it was, and when it fails otherwise nothing is saved. *)
Theorem saved_history_within_30_days now h today_stats st :
  Date.valid now = true -> 1001 <= Date.year now -> hwrite st = WriteOk ->
  exists written doc,
    save_historical_data now h today_stats st = Ok written /\
    hfile written = HDoc doc /\
    doc !! Date.strftime_Ymd now = Some today_stats /\
    forall d, Date.valid d = true -> is_Some (doc !! Date.strftime_Ymd d) ->
              Date.toordinal now - 30 <= Date.toordinal d.
Proof.
  intros Hnow Hyear Hwrite.
  destruct (valid_well_formed now Hnow) as [Hwf Hrange].
  destruct (minus_days_spec 30 now Hwf) as (Hord & Hcut & Hcuty).
  exists {| hfile := HDoc (pruned_history now h today_stats); hwrite := WriteOk |}.
  exists (pruned_history now h today_stats).
  split; [unfold save_historical_data; rewrite Hwrite; reflexivity|].
  split; [reflexivity|].
  unfold pruned_history. split.
  - apply map_lookup_filter_Some. split; [apply lookup_insert_eq|].
    cbn [fst]. apply Is_true_true.
    apply strftime_leb_ordinal; [assumption | assumption | lia | lia | lia].
  - intros d Hd [stats Hlook].
    destruct (valid_well_formed d Hd) as [Hdwf Hdrange].
    apply map_lookup_filter_Some in Hlook. destruct Hlook as [_ Hkeep].
    cbn [fst] in Hkeep. apply Is_true_true in Hkeep.
    apply strftime_leb_ordinal in Hkeep; [lia | assumption | assumption | lia | lia].
Qed.

Lemma saved_history_within_30_days_witness :
  exists written doc,
    save_historical_data march_10 two_days ∅ fresh_store = Ok written /\
    hfile written = HDoc doc /\
    doc !! Date.strftime_Ymd march_10 = Some ∅ /\
    forall d, Date.valid d = true -> is_Some (doc !! Date.strftime_Ymd d) ->
              Date.toordinal march_10 - 30 <= Date.toordinal d.
Proof.
  apply (saved_history_within_30_days march_10 two_days ∅ fresh_store).
  - reflexivity.
  - simpl. lia.
  - reflexivity.
Defined.

(** ** The scenarios of the specification, run on the model *)

(** Scenario A: a client line, then the sent line of the same queue id. *)
Example scenario_client_then_sent :
  let ix := fold_left first_pass_step [client_line; sent_line] empty_index in
  let a := fold_left (second_pass_step ix) [client_line; sent_line] empty_acc in
  sent_count a = 1 /\
  senders a !! "a@x.org" = Some 1 /\
  recipients a !! "b@y.org" = Some 1 /\
  sending_hosts ix !! "host1" = Some 1 /\
  message_clients ix !! "AAA1" = Some "host1" /\
  queue_times a = [PyStr.float_of "1.2"].
Proof. vm_compute. repeat split. Qed.

(** Scenario B: a deferred line with a connection timeout. *)
Example scenario_deferred_timeout :
  let a := second_pass_step empty_index empty_acc deferred_line in
  deferred_count a = 1 /\
  error_categories a !! "Connection Timeout" = Some 1 /\
  errors a = [deferred_line].
Proof. vm_compute. repeat split. Qed.

(** Scenario D: three recent days at 300 against five earlier days at 100. *)
Example scenario_trend_up :
  exists trends t,
    calculate_trends eight_days = Ok trends /\
    trends !! "sent_count" = Some t /\
    (recent_avg t == 300)%Q /\ (baseline_avg t == 100)%Q /\
    (percentage t == 200)%Q /\ direction t = dir_up.
Proof.
  eexists. eexists. split; [vm_compute; reflexivity|].
  split; [vm_compute; reflexivity|].
  repeat split.
Qed.

(** The regular expressions on lines of the log. *)
Example search_client :
  Re.search Pat.client client_line = Some ["AAA1"; "host1"].
Proof. reflexivity. Qed.

Example search_timestamp :
  Re.rematch Pat.timestamp sent_line = Some ["2025-03-10"; "09"].
Proof. reflexivity. Qed.

Example search_delay :
  Re.search1 Pat.delay internal_fast_line = Some "0.05".
Proof. reflexivity. Qed.

(** * Further properties of the engine and of the report *)

(** ** A run as two folds over the lines of the day *)

Lemma for_each_dates_fold {S : Type} fs logpath dates (body : S -> string -> S) s s' :
  for_each dates (fun s date => for_lines (log_lines_today fs logpath date) body s) s
  = Ok s' ->
  s' = fold_left body
         (flat_map (fun date => yielded (log_lines_today fs logpath date)) dates) s.
Proof.
  revert s. induction dates as [|date dates IH]; intros s; cbn [for_each flat_map].
  - intros [= <-]. reflexivity.
  - unfold for_lines at 1.
    destruct (raised (log_lines_today fs logpath date)); [discriminate|].
    cbn [bind]. intros Hrest. rewrite fold_left_app. apply IH. exact Hrest.
Qed.

Lemma over_sources_fold {S : Type} fs paths dates (body : S -> string -> S) s s' :
  over_sources fs paths dates body s = Ok s' ->
  s' = fold_left body (day_lines fs paths dates) s.
Proof.
  unfold over_sources, day_lines. revert s.
  induction paths as [|logpath paths IH]; intros s.
  - cbn [for_each flat_map]. intros [= <-]. reflexivity.
  - rewrite for_each_cons. cbn [flat_map].
    destruct (for_each dates _ s) as [s1|e] eqn:E; cbn [bind]; [|discriminate].
    apply for_each_dates_fold in E. intros Hrest.
    rewrite fold_left_app, <- E. apply IH. exact Hrest.
Qed.

Lemma main_inv cfg fs st now r :
  main cfg fs st now = Ok r ->
  exists h ix a,
    load_historical_data st = Ok h /\
    run_passes cfg fs now = Ok (ix, a) /\
    summarize cfg now st h ix a = Ok r.
Proof.
  unfold main, run_passes.
  destruct (load_historical_data st) as [h|e]; cbn [bind]; [|discriminate].
  destruct (over_sources fs (LOG_PATHS cfg) _ first_pass_step empty_index)
    as [ix|e]; cbn [bind]; [|discriminate].
  destruct (over_sources fs (LOG_PATHS cfg) _ (second_pass_step ix) empty_acc)
    as [a|e]; cbn [bind]; [|discriminate].
  intros Hsum. exists h, ix, a. auto.
Qed.

(** The lines of a run: those of today and of yesterday in every source. *)
Lemma run_passes_fold cfg fs now ix a :
  run_passes cfg fs now = Ok (ix, a) ->
  let lines := day_lines fs (LOG_PATHS cfg)
                 [Date.strftime_Ymd now; Date.strftime_Ymd (Date.minus_days 1 now)] in
  ix = fold_left first_pass_step lines empty_index /\
  a = fold_left (second_pass_step ix) lines empty_acc.
Proof.
  unfold run_passes.
  destruct (over_sources fs (LOG_PATHS cfg) _ first_pass_step empty_index)
    as [ix'|e] eqn:E1; cbn [bind]; [|discriminate].
  destruct (over_sources fs (LOG_PATHS cfg) _ (second_pass_step ix') empty_acc)
    as [a'|e] eqn:E2; cbn [bind]; [|discriminate].
  intros [= <- <-]. apply over_sources_fold in E1, E2. auto.
Qed.

(** Every field of the report, as [summarize] computes it. *)
Lemma summarize_fields cfg now st h ix a r :
  summarize cfg now st h ix a = Ok r ->
  r_sent_count r = sent_count a /\
  r_deferred_count r = deferred_count a /\
  r_bounced_count r = bounced_count a /\
  r_total_messages r = sent_count a + deferred_count a + bounced_count a /\
  r_total_size r = total_size a /\
  calculate_trends h = Ok (r_trends r) /\
  r_max_queue_time r = qmax_list (queue_times a) /\
  r_max_hourly r = counter_max (hourly_traffic a) /\
  r_min_hourly r = counter_min (hourly_traffic a) /\
  r_health_score r = health (r_success_rate r) (r_avg_queue_time r) ix a /\
  r_alerts r
  = evaluate_alerts cfg ix a (r_trends r) (r_success_rate r) (r_avg_queue_time r)
      (r_defer_rate r) (r_avg_message_size r) (r_throughput_per_minute r)
      (r_max_hourly r) /\
  r_mail_loops r = mail_loops a /\
  r_errors r = errors a /\
  guarded (negb (Nat.eqb (length (queue_times a)) 0))
          (truediv (qsum (queue_times a)) (qlen (queue_times a)))
  = Ok (r_avg_queue_time r) /\
  guarded (0 <? r_total_messages r)
          (q <- truediv (inject_Z (sent_count a)) (inject_Z (r_total_messages r)) ;;
           Ok (q * 100)%Q) = Ok (r_success_rate r) /\
  guarded (0 <? r_total_messages r)
          (q <- truediv (inject_Z (deferred_count a)) (inject_Z (r_total_messages r)) ;;
           Ok (q * 100)%Q) = Ok (r_defer_rate r) /\
  guarded (0 <? r_total_messages r)
          (truediv (inject_Z (total_size a)) (inject_Z (r_total_messages r)))
  = Ok (r_avg_message_size r) /\
  guarded (0 <? r_total_messages r)
          (truediv (inject_Z (r_total_messages r)) (inject_Z (24 * 60)))
  = Ok (r_throughput_per_minute r).
Proof.
  unfold summarize.
  destruct (guarded (negb _) _) as [aq|] eqn:Eaq; cbn [bind]; [|discriminate].
  destruct (guarded _ (bind (truediv (inject_Z (sent_count a)) _) _))
    as [sr|] eqn:Esr; cbn [bind]; [|discriminate].
  destruct (calculate_trends h) as [trends|] eqn:Etr; cbn [bind]; [|discriminate].
  destruct (guarded _ (truediv (inject_Z (total_size a)) _))
    as [ams|] eqn:Eams; cbn [bind]; [|discriminate].
  destruct (guarded _ (bind (truediv (inject_Z (deferred_count a)) _) _))
    as [dr|] eqn:Edr; cbn [bind]; [|discriminate].
  destruct (guarded _ (truediv _ (inject_Z (24 * 60))))
    as [tp|] eqn:Etp; cbn [bind]; [|discriminate].
  destruct (save_historical_data _ _ _ _) as [written|]; cbn [bind]; [|discriminate].
  intros [= <-].
  cbn [r_sent_count r_deferred_count r_bounced_count r_total_messages r_total_size
       r_trends r_max_queue_time r_max_hourly r_min_hourly r_health_score r_alerts
       r_mail_loops r_errors r_avg_queue_time r_success_rate r_defer_rate
       r_avg_message_size r_throughput_per_minute r_success_rate].
  repeat (split; [first [reflexivity | assumption]|]). assumption.
Qed.

(** A property every line of the second pass keeps holds of the
    accumulators of a run. *)
Lemma run_passes_invariant (P : acc -> Prop) cfg fs now ix a :
  P empty_acc ->
  (forall ix a line, P a -> P (second_pass_step ix a line)) ->
  run_passes cfg fs now = Ok (ix, a) -> P a.
Proof.
  intros Hinit Hstep Hrun. apply run_passes_fold in Hrun. cbn zeta in Hrun.
  destruct Hrun as [_ ->]. apply fold_left_invariant; auto.
Qed.

Lemma run_passes_acc_ok cfg fs now ix a :
  run_passes cfg fs now = Ok (ix, a) -> acc_ok a.
Proof.
  apply run_passes_invariant; [exact empty_acc_ok|].
  intros ix' a' line. apply second_pass_step_ok.
Qed.

(** ** Counters *)

Lemma fold_left_add_acc (l : list Z) (a : Z) :
  fold_left Z.add l a = a + fold_left Z.add l 0.
Proof.
  revert a. induction l as [|x l IH]; intros a; simpl; [lia|].
  rewrite (IH (a + x)), (IH (0 + x)). lia.
Qed.

Lemma sum_permutation (l l' : list Z) :
  l ≡ₚ l' -> fold_left Z.add l 0 = fold_left Z.add l' 0.
Proof.
  induction 1 as [|x l l' _ IH|x y l|l l' l'' _ IH1 _ IH2]; simpl.
  - reflexivity.
  - rewrite (fold_left_add_acc l), (fold_left_add_acc l'), IH. reflexivity.
  - rewrite (fold_left_add_acc l (0 + y + x)), (fold_left_add_acc l (0 + x + y)). lia.
  - congruence.
Qed.

Lemma counter_total_empty `{Countable K} : counter_total (∅ : gmap K Z) = 0.
Proof. unfold counter_total. rewrite map_to_list_empty. reflexivity. Qed.

Lemma counter_total_insert_fresh `{Countable K} (k : K) (v : Z) (c : gmap K Z) :
  c !! k = None -> counter_total (<[k := v]> c) = counter_total c + v.
Proof.
  intros Hfresh. unfold counter_total.
  rewrite (sum_permutation _ (map snd ((k, v) :: map_to_list c))).
  - simpl. rewrite fold_left_add_acc. lia.
  - apply Permutation_map. apply map_to_list_insert. exact Hfresh.
Qed.

Lemma counter_total_insert `{Countable K} (k : K) (v : Z) (c : gmap K Z) :
  counter_total (<[k := v]> c) = counter_total c - default 0 (c !! k) + v.
Proof.
  destruct (c !! k) as [old|] eqn:E; cbn [default from_option id].
  - pose proof (counter_total_insert_fresh k v (delete k c) (lookup_delete_eq c k))
      as Hnew.
    pose proof (counter_total_insert_fresh k old (delete k c) (lookup_delete_eq c k))
      as Hold.
    rewrite insert_delete_eq in Hnew.
    rewrite (insert_delete_id c k old E) in Hold. lia.
  - rewrite counter_total_insert_fresh by assumption. lia.
Qed.

(** Counting one more occurrence adds one to the total of a counter. *)
Lemma counter_total_incr `{Countable K} (k : K) (c : gmap K Z) :
  counter_total (incr k c) = counter_total c + 1.
Proof. unfold incr. rewrite counter_total_insert. lia. Qed.

(** ** The second pass, line by line *)

Lemma classify_cases (line : string) :
  (is_status Sent line = true /\ is_status Deferred line = false /\
   is_status Bounced line = false /\ is_status Ignored line = false) \/
  (is_status Sent line = false /\ is_status Deferred line = true /\
   is_status Bounced line = false /\ is_status Ignored line = false) \/
  (is_status Sent line = false /\ is_status Deferred line = false /\
   is_status Bounced line = true /\ is_status Ignored line = false) \/
  (is_status Sent line = false /\ is_status Deferred line = false /\
   is_status Bounced line = false /\ is_status Ignored line = true).
Proof. unfold is_status. destruct (classify line); tauto. Qed.

Lemma second_pass_step_counts ix a line :
  sent_count (second_pass_step ix a line)
  = sent_count a + indicator (is_status Sent line) /\
  deferred_count (second_pass_step ix a line)
  = deferred_count a + indicator (is_status Deferred line) /\
  bounced_count (second_pass_step ix a line)
  = bounced_count a + indicator (is_status Bounced line).
Proof.
  unfold second_pass_step, is_status, classify.
  destruct (PyStr.contains " status=sent " line);
    [cbn; lia|].
  destruct (PyStr.contains "status=deferred" line);
    [cbn; lia|].
  destruct (PyStr.contains "status=bounced" line || PyStr.contains "status=reject" line);
    cbn; lia.
Qed.

Lemma count_status_cons s line lines :
  count_status s (line :: lines) = indicator (is_status s line) + count_status s lines.
Proof.
  unfold count_status, indicator. cbn [List.filter].
  destruct (is_status s line); cbn [length]; lia.
Qed.

Lemma second_pass_counts_from ix lines a :
  let a' := fold_left (second_pass_step ix) lines a in
  sent_count a' = sent_count a + count_status Sent lines /\
  deferred_count a' = deferred_count a + count_status Deferred lines /\
  bounced_count a' = bounced_count a + count_status Bounced lines.
Proof.
  revert a. induction lines as [|line lines IH]; intros a; cbn [fold_left].
  - unfold count_status. cbn. lia.
  - specialize (IH (second_pass_step ix a line)). cbn zeta in IH.
    destruct IH as (Hs & Hd & Hb).
    destruct (second_pass_step_counts ix a line) as (Hs1 & Hd1 & Hb1).
    rewrite !count_status_cons. cbn zeta. lia.
Qed.

(** X1. Each line of the second pass is counted once at most, by the
    first status marker it carries in the order sent, deferred,
    bounced or rejected: the three counters are the numbers of lines of
    each class, and lines without a marker are counted nowhere. *)
Theorem second_pass_counts_each_line_once ix lines :
  let a := fold_left (second_pass_step ix) lines empty_acc in
  sent_count a = count_status Sent lines /\
  deferred_count a = count_status Deferred lines /\
  bounced_count a = count_status Bounced lines /\
  sent_count a + deferred_count a + bounced_count a
  = Z.of_nat (length lines) - count_status Ignored lines.
Proof.
  cbn zeta.
  destruct (second_pass_counts_from ix lines empty_acc) as (Hs & Hd & Hb).
  cbn zeta in Hs, Hd, Hb. cbn [sent_count deferred_count bounced_count empty_acc] in *.
  rewrite Hs, Hd, Hb. repeat split; try lia.
  clear. induction lines as [|line lines IH].
  - unfold count_status. cbn. lia.
  - rewrite !count_status_cons. cbn [length].
    destruct (classify_cases line) as [H|[H|[H|H]]];
      destruct H as (-> & -> & -> & ->); unfold indicator; lia.
Qed.

(** X2. The table of suspicious senders is the table of senders: both
    count the sender of every sent line, and nothing else. *)
Theorem suspicious_senders_are_the_senders ix lines :
  let a := fold_left (second_pass_step ix) lines empty_acc in
  suspicious_senders a = senders a /\
  counter_total (senders a) <= sent_count a.
Proof.
  cbn zeta.
  apply (fold_left_invariant
           (fun a => suspicious_senders a = senders a /\
                     counter_total (senders a) <= sent_count a)).
  - intros a line [Heq Hle]. unfold second_pass_step.
    destruct (PyStr.contains " status=sent " line).
    + cbn [suspicious_senders senders sent_count]. rewrite Heq.
      destruct (Re.search1 Pat.from_addr line); split; try reflexivity.
      * rewrite counter_total_incr. lia.
      * lia.
    + destruct (PyStr.contains "status=deferred" line); [cbn; auto|].
      destruct (_ || _); cbn; auto.
  - cbn. split; [reflexivity|]. rewrite counter_total_empty. lia.
Qed.

(** X3. Every deferred and every bounced or rejected line is put in one
    error category: the categories add up to the two counters. *)
Theorem error_categories_add_up ix lines :
  let a := fold_left (second_pass_step ix) lines empty_acc in
  counter_total (error_categories a) = deferred_count a + bounced_count a.
Proof.
  cbn zeta.
  apply (fold_left_invariant
           (fun a => counter_total (error_categories a)
                     = deferred_count a + bounced_count a)).
  - intros a line Hinv. unfold second_pass_step.
    destruct (PyStr.contains " status=sent " line); [cbn; exact Hinv|].
    destruct (PyStr.contains "status=deferred" line).
    { cbn [error_categories deferred_count bounced_count].
      rewrite counter_total_incr. lia. }
    destruct (_ || _); [|exact Hinv].
    cbn [error_categories deferred_count bounced_count].
    rewrite counter_total_incr. lia.
  - cbn. rewrite counter_total_empty. reflexivity.
Qed.

(** ** Reports *)

(** What holds of the report of every run that ends, and the only way a
    run does not end. *)
Lemma main_report_rule cfg fs st now (P : report -> Prop) :
  (forall h ix a r,
      load_historical_data st = Ok h ->
      run_passes cfg fs now = Ok (ix, a) ->
      summarize cfg now st h ix a = Ok r -> P r) ->
  match main cfg fs st now with
  | Ok r => P r
  | Raise e => e = OSError
  end.
Proof.
  intros HP. destruct (main cfg fs st now) as [r|e] eqn:Emain.
  - destruct (main_inv _ _ _ _ _ Emain) as (h & ix & a & Hl & Hp & Hs). eauto.
  - revert Emain. unfold main.
    destruct (load_historical_data st) as [h|e0] eqn:Eload; cbn [bind].
    2:{ unfold load_historical_data in Eload. destruct (hfile st); congruence. }
    destruct (over_sources fs (LOG_PATHS cfg) _ first_pass_step empty_index)
      as [ix|e1] eqn:E1; cbn [bind].
    2:{ apply over_sources_raises in E1. congruence. }
    destruct (over_sources fs (LOG_PATHS cfg) _ (second_pass_step ix) empty_acc)
      as [a|e2] eqn:E2; cbn [bind].
    2:{ apply over_sources_raises in E2. congruence. }
    apply summarize_raises.
Qed.

(** ** The health score *)

(** The health score is a number from 0 to 100, whatever the rates, the
    authentication failures and the mail loops. *)
Lemma health_score_between_0_and_100 success_rate avg_queue_time ix a :
  (0 <= health success_rate avg_queue_time ix a <= 100)%Q.
Proof.
  unfold health.
  set (h1 := if Qltb success_rate 95 then _ else _).
  assert (H1 : (h1 <= 100)%Q).
  { subst h1. destruct (Qltb success_rate 95) eqn:E; [|lra].
    apply Qltb_lt in E. lra. }
  set (h2 := if Qltb 30 avg_queue_time then _ else _).
  assert (H2 : (h2 <= 100)%Q).
  { subst h2. destruct (Qltb 30 avg_queue_time) eqn:E; [|lra].
    apply Qltb_lt in E.
    destruct (Q.min_spec (avg_queue_time - 30) 20) as [[_ Hm]|[_ Hm]]; lra. }
  set (h3 := if negb _ then _ else _).
  assert (H3 : (h3 <= 100)%Q).
  { subst h3. destruct (negb _); [|lra].
    set (n := inject_Z _).
    assert (Hn : (0 <= n)%Q) by (subst n; rewrite <- (Zle_Qle 0); lia).
    destruct (Q.min_spec n 30) as [[_ Hm]|[_ Hm]]; lra. }
  set (h4 := match mail_loops a with [] => _ | _ => _ end).
  assert (H4 : (h4 <= 100)%Q).
  { subst h4. destruct (mail_loops a) as [|l ls]; [lra|].
    set (n := inject_Z _).
    assert (Hn : (0 <= n)%Q) by (subst n; rewrite <- (Zle_Qle 0); lia).
    lra. }
  destruct (Q.max_spec 0 h4) as [[Hlt Hm]|[Hle Hm]]; lra.
Qed.

(** ** Rates *)

Lemma guarded_rate_value (n total : Z) (rate : Q) :
  guarded (0 <? total)
          (q <- truediv (inject_Z n) (inject_Z total) ;; Ok (q * 100)%Q) = Ok rate ->
  (0 < total -> rate = (inject_Z n / inject_Z total * 100)%Q) /\
  (total <= 0 -> rate = 0%Q).
Proof.
  unfold guarded. destruct (Z.ltb_spec 0 total) as [Hpos|Hneg].
  - rewrite truediv_ok by (apply inject_Z_nonzero; lia). cbn [bind].
    intros [= <-]. split; [reflexivity | lia].
  - intros [= <-]. split; [lia | reflexivity].
Qed.

(** X4. The defer rate of a run that ends is a number from 0 to 100: it
    is 0 when no line was deferred, and so when no message was counted,
    and 100 when every counted message was deferred. *)
Theorem defer_rate_between_0_and_100 cfg fs st now r :
  main cfg fs st now = Ok r ->
  (0 <= r_defer_rate r <= 100)%Q /\
  (r_deferred_count r = 0 -> (r_defer_rate r == 0)%Q) /\
  (0 < r_total_messages r -> r_deferred_count r = r_total_messages r ->
   (r_defer_rate r == 100)%Q).
Proof.
  intros Hmain.
  destruct (main_inv _ _ _ _ _ Hmain) as (h & ix & a & _ & Hpass & Hsum).
  destruct (run_passes_acc_ok _ _ _ _ _ Hpass) as (Hs & Hd & Hb & _).
  destruct (summarize_fields _ _ _ _ _ _ _ Hsum)
    as (_ & Ed & _ & Et & _ & _ & _ & _ & _ & _ & _ & _ & _ & _ & _ & Edr & _).
  apply guarded_rate_value in Edr. destruct Edr as [Edr Edr0].
  rewrite Ed.
  destruct (Z.ltb_spec 0 (r_total_messages r)) as [Hpos|Hzero].
  - rewrite (Edr Hpos).
    assert (Ht : (0 < inject_Z (r_total_messages r))%Q)
      by (rewrite <- (Zlt_Qlt 0); exact Hpos).
    assert (Hd0 : (0 <= inject_Z (deferred_count a))%Q)
      by (rewrite <- (Zle_Qle 0); exact Hd).
    assert (Hdt : (inject_Z (deferred_count a) <= inject_Z (r_total_messages r))%Q)
      by (rewrite <- Zle_Qle; lia).
    assert (Hq0 : (0 <= inject_Z (deferred_count a) / inject_Z (r_total_messages r))%Q)
      by (apply Qle_shift_div_l; [exact Ht | lra]).
    assert (Hq1 : (inject_Z (deferred_count a) / inject_Z (r_total_messages r) <= 1)%Q)
      by (apply Qle_shift_div_r; [exact Ht | lra]).
    split; [lra|]. split.
    + intros ->. field. lra.
    + intros _ ->. field. lra.
  - rewrite (Edr0 Hzero). split; [lra|]. split; [reflexivity | lia].
Qed.

Lemma defer_rate_between_0_and_100_witness :
  exists r,
    main default_config (deferred_log 3) fresh_store march_10 = Ok r /\
    (0 <= r_defer_rate r <= 100)%Q /\
    (r_defer_rate r == 100)%Q.
Proof.
  destruct (main default_config (deferred_log 3) fresh_store march_10)
    as [r|e] eqn:E; [|vm_compute in E; discriminate].
  destruct (defer_rate_between_0_and_100
              default_config (deferred_log 3) fresh_store march_10 r E)
    as (Hrange & _ & Hall).
  exists r. split; [reflexivity|]. split; [exact Hrange|].
  apply Hall; vm_compute in E; injection E as <-; reflexivity.
Defined.

(** X5. The health score of every run is a number from 0 to 100. *)
Theorem main_health_score_in_range cfg fs st now :
  match main cfg fs st now with
  | Ok r => (0 <= r_health_score r <= 100)%Q
  | Raise e => e = OSError
  end.
Proof.
  apply main_report_rule. intros h ix a r _ _ Hsum.
  destruct (summarize_fields _ _ _ _ _ _ _ Hsum)
    as (_ & _ & _ & _ & _ & _ & _ & _ & _ & -> & _).
  apply health_score_between_0_and_100.
Qed.

(** ** Alerts *)

(** X6. A run that counts no message at all reports a success rate of 0,
    so with a positive [min_success_rate] its first alert is the low
    success rate, at 0. *)
Theorem quiet_day_raises_low_success_rate cfg fs st now r :
  main cfg fs st now = Ok r ->
  r_total_messages r = 0 ->
  (0 < min_success_rate (ALERT_THRESHOLDS cfg))%Q ->
  exists rest, r_alerts r = LowSuccessRate 0 :: rest.
Proof.
  intros Hmain Hzero Hmin.
  destruct (main_inv _ _ _ _ _ Hmain) as (h & ix & a & _ & _ & Hsum).
  destruct (summarize_fields _ _ _ _ _ _ _ Hsum)
    as (_ & _ & _ & _ & _ & _ & _ & _ & _ & _ & -> & _ & _ & _ & Esr & _).
  apply guarded_rate_value in Esr. destruct Esr as [_ Esr].
  rewrite (Esr ltac:(lia)). unfold evaluate_alerts.
  apply Qltb_lt in Hmin. rewrite Hmin. cbn [app]. eauto.
Qed.

Lemma quiet_day_raises_low_success_rate_witness :
  exists r rest,
    main default_config no_logs fresh_store march_10 = Ok r /\
    r_alerts r = LowSuccessRate 0 :: rest.
Proof.
  destruct (main default_config no_logs fresh_store march_10) as [r|e] eqn:E;
    [|vm_compute in E; discriminate].
  destruct (quiet_day_raises_low_success_rate default_config no_logs fresh_store
              march_10 r E) as [rest Hrest].
  - vm_compute in E. injection E as <-. reflexivity.
  - reflexivity.
  - exists r, rest. split; [reflexivity | exact Hrest].
Defined.

Ltac alert_membership H :=
  unfold evaluate_alerts in H;
  repeat rewrite in_app_iff in H;
  repeat match type of H with
         | context [if ?b then _ else _] => destruct b eqn:?
         | context [match ?x with _ => _ end] => destruct x eqn:?
         end;
  cbn [In] in H.

(** X7. With the high-volume mode off, the alert evaluator raises none of
    the four alerts of that mode: peak hour volume, defer rate, average
    size, throughput. *)
Theorem no_high_volume_alert_without_the_mode cfg ix a trends sr aq dr ams tp mh al :
  HIGH_VOLUME_MODE cfg = false ->
  In al (evaluate_alerts cfg ix a trends sr aq dr ams tp mh) ->
  high_volume_alert al = false.
Proof.
  intros Hoff Hin. unfold evaluate_alerts in Hin. rewrite Hoff in Hin.
  repeat rewrite in_app_iff in Hin.
  repeat match type of Hin with
         | context [if ?b then _ else _] => destruct b
         | context [match ?x with _ => _ end] => destruct x
         end;
    cbn [In] in Hin; intuition (subst; reflexivity).
Qed.

Lemma no_high_volume_alert_without_the_mode_witness :
  In (LowSuccessRate 0)
     (evaluate_alerts mode_off empty_index empty_acc ∅ 0 0 100 0 1000 1000) /\
  high_volume_alert (LowSuccessRate 0) = false.
Proof.
  assert (Hin : In (LowSuccessRate 0)
                  (evaluate_alerts mode_off empty_index empty_acc ∅ 0 0 100 0 1000 1000))
    by (left; reflexivity).
  split; [exact Hin|].
  exact (no_high_volume_alert_without_the_mode mode_off empty_index empty_acc ∅
           0 0 100 0 1000 1000 (LowSuccessRate 0) eq_refl Hin).
Defined.

Lemma filter_single {A : Type} (f : A -> bool) (b : bool) (x : A) :
  List.filter f (if b then [x] else []) = if b && f x then [x] else [].
Proof. destruct b; cbn; [destruct (f x)|]; reflexivity. Qed.

Lemma throughput_alerts cfg ix a trends sr aq dr ams tp mh :
  List.filter is_throughput_alert (evaluate_alerts cfg ix a trends sr aq dr ams tp mh)
  = if HIGH_VOLUME_MODE cfg && Qltb 100 tp then [HighThroughput tp] else [].
Proof.
  unfold evaluate_alerts. rewrite !List.filter_app.
  destruct (HIGH_VOLUME_MODE cfg); cbn [andb].
  - rewrite !List.filter_app, !filter_single. cbn [is_throughput_alert].
    rewrite !andb_false_r, andb_true_r.
    destruct (mail_loops a); destruct (trend_pct trends "success_rate") as [p1|];
      destruct (trend_pct trends "avg_queue_time") as [p2|];
      try destruct (Qltb p1 (-10)); try destruct (Qltb 50 p2); reflexivity.
  - rewrite !filter_single. cbn [is_throughput_alert].
    rewrite !andb_false_r.
    destruct (mail_loops a); destruct (trend_pct trends "success_rate") as [p1|];
      destruct (trend_pct trends "avg_queue_time") as [p2|];
      try destruct (Qltb p1 (-10)); try destruct (Qltb 50 p2); reflexivity.
Qed.

(** X8. A run raises the throughput alert exactly when the high-volume
    mode is on and it counted more than 144000 messages, that is more
    than 100 a minute over the 1440 minutes of a day. *)
Theorem throughput_alert_above_144000 cfg fs st now r :
  main cfg fs st now = Ok r ->
  (exists q, In (HighThroughput q) (r_alerts r)) <->
  HIGH_VOLUME_MODE cfg = true /\ 144000 < r_total_messages r.
Proof.
  intros Hmain.
  destruct (main_inv _ _ _ _ _ Hmain) as (h & ix & a & _ & _ & Hsum).
  destruct (summarize_fields _ _ _ _ _ _ _ Hsum)
    as (_ & _ & _ & _ & _ & _ & _ & _ & _ & _ & Halerts & _ & _ & _ & _ & _ & _ & Etp).
  assert (Hrate : Qltb 100 (r_throughput_per_minute r) = true
                  <-> 144000 < r_total_messages r).
  { rewrite Qltb_lt. revert Etp. unfold guarded.
    destruct (Z.ltb_spec 0 (r_total_messages r)) as [Hpos|Hneg].
    - rewrite truediv_ok by (apply inject_Z_nonzero; lia). intros [= <-].
      change (inject_Z (24 * 60)) with 1440%Q.
      assert (E : (inject_Z (r_total_messages r)
                   == inject_Z (r_total_messages r) / 1440 * 1440)%Q) by (field; lra).
      rewrite (Zlt_Qlt 144000). change (inject_Z 144000) with 144000%Q.
      split; intros Hlt; lra.
    - intros [= <-]. split; [intros Hlt; lra | lia]. }
  assert (Hfilter := throughput_alerts cfg ix a (r_trends r) (r_success_rate r)
                       (r_avg_queue_time r) (r_defer_rate r) (r_avg_message_size r)
                       (r_throughput_per_minute r) (r_max_hourly r)).
  rewrite <- Halerts in Hfilter.
  split.
  - intros [q Hin].
    assert (Hin' : In (HighThroughput q) (List.filter is_throughput_alert (r_alerts r)))
      by (apply filter_In; split; [exact Hin | reflexivity]).
    rewrite Hfilter in Hin'.
    destruct (HIGH_VOLUME_MODE cfg); [|destruct Hin'].
    destruct (Qltb 100 (r_throughput_per_minute r)) eqn:E; [|destruct Hin'].
    split; [reflexivity | apply Hrate; reflexivity].
  - intros [Hmode Hmany]. exists (r_throughput_per_minute r).
    apply Hrate in Hmany. rewrite Hmode, Hmany in Hfilter. cbn [andb] in Hfilter.
    assert (Hin : In (HighThroughput (r_throughput_per_minute r))
                    (List.filter is_throughput_alert (r_alerts r)))
      by (rewrite Hfilter; left; reflexivity).
    apply filter_In in Hin. tauto.
Qed.

Lemma throughput_alert_above_144000_witness :
  exists r,
    main default_config no_logs fresh_store march_10 = Ok r /\
    ((exists q, In (HighThroughput q) (r_alerts r)) <->
     HIGH_VOLUME_MODE default_config = true /\ 144000 < r_total_messages r).
Proof.
  destruct (main default_config no_logs fresh_store march_10) as [r|e] eqn:E;
    [|vm_compute in E; discriminate].
  exists r. split; [reflexivity|].
  exact (throughput_alert_above_144000 default_config no_logs fresh_store march_10 r E).
Defined.

(** ** Counters whose entries are all positive *)

Lemma positive_counter_empty `{Countable K} : positive_counter (∅ : gmap K Z).
Proof. apply map_Forall_empty. Qed.

Lemma positive_counter_incr `{Countable K} (k : K) (c : gmap K Z) :
  positive_counter c -> positive_counter (incr k c).
Proof.
  intros Hc. unfold incr. apply map_Forall_insert_2; [|exact Hc].
  destruct (c !! k) as [v|] eqn:E; cbn [default from_option id]; [|lia].
  specialize (Hc k v E). cbn in Hc. lia.
Qed.

Lemma sum_nonnegative (l : list Z) :
  Forall (fun v => 0 <= v) l -> 0 <= fold_left Z.add l 0.
Proof.
  induction 1 as [|x l Hx _ IH]; simpl; [lia|].
  rewrite fold_left_add_acc. lia.
Qed.

Lemma positive_counter_values `{Countable K} (c : gmap K Z) :
  positive_counter c -> Forall (fun v => 1 <= v) (map snd (map_to_list c)).
Proof.
  intros Hc. apply List.Forall_forall. intros v Hin.
  apply in_map_iff in Hin. destruct Hin as ([k v'] & <- & Hin).
  apply list_elem_of_In, elem_of_map_to_list in Hin. exact (Hc k v' Hin).
Qed.

Lemma counter_total_nonnegative `{Countable K} (c : gmap K Z) :
  positive_counter c -> 0 <= counter_total c.
Proof.
  intros Hc. apply sum_nonnegative.
  apply (List.Forall_impl (P := fun v => 1 <= v)); [intros v Hv; lia|].
  apply positive_counter_values. exact Hc.
Qed.

Lemma positive_counter_delete `{Countable K} (k : K) (c : gmap K Z) :
  positive_counter c -> positive_counter (delete k c).
Proof.
  intros Hc k' v Hlook. apply lookup_delete_Some in Hlook. destruct Hlook as [_ Hlook].
  exact (Hc k' v Hlook).
Qed.

(** An entry of a counter is at most its total. *)
Lemma counter_entry_le_total `{Countable K} (k : K) (v : Z) (c : gmap K Z) :
  positive_counter c -> c !! k = Some v -> v <= counter_total c.
Proof.
  intros Hc Hlook.
  pose proof (counter_total_insert_fresh k v (delete k c) (lookup_delete_eq c k)) as Ht.
  rewrite (insert_delete_id c k v Hlook) in Ht.
  pose proof (counter_total_nonnegative _ (positive_counter_delete k c Hc)). lia.
Qed.

Lemma fold_min_max (vs : list Z) (lo hi : Z) :
  1 <= lo <= hi -> Forall (fun v => 1 <= v) vs ->
  1 <= fold_left Z.min vs lo <= fold_left Z.max vs hi.
Proof.
  intros Hlo Hvs. revert lo hi Hlo.
  induction Hvs as [|x vs Hx _ IH]; intros lo hi Hlo; cbn [fold_left]; [lia|].
  apply IH. lia.
Qed.

(** The quietest hour of a non-empty table has a message, and the
    busiest has no fewer. *)
Lemma counter_min_max `{Countable K} (c : gmap K Z) :
  positive_counter c ->
  (c = ∅ /\ counter_min c = 0 /\ counter_max c = 0) \/
  (c <> ∅ /\ 1 <= counter_min c <= counter_max c).
Proof.
  intros Hc. unfold counter_min, counter_max.
  pose proof (positive_counter_values c Hc) as Hvs.
  destruct (map_to_list c) as [|[k v] l] eqn:E.
  - left. apply map_to_list_empty_iff in E. auto.
  - right. split.
    + intros ->. rewrite map_to_list_empty in E. discriminate.
    + cbn [map snd] in *. inversion Hvs as [|? ? Hv Hl]; subst.
      apply fold_min_max; [lia | exact Hl].
Qed.

(** ** Invariants of the tables of the second pass *)

Lemma empty_tables_ok : tables_ok empty_acc.
Proof.
  unfold tables_ok. cbn. repeat split; try apply positive_counter_empty; try lia.
  rewrite counter_total_empty. lia.
Qed.

Lemma second_pass_step_tables_ok ix a line :
  tables_ok a -> tables_ok (second_pass_step ix a line).
Proof.
  unfold tables_ok. intros (Hh & Hs & Ht & Hn & He). unfold second_pass_step.
  destruct (PyStr.contains " status=sent " line).
  - cbn [hourly_traffic suspicious_senders sent_count].
    split; [|split; [|split; [|split]]].
    + destruct (Re.rematch Pat.timestamp line) as [[|? [|hour ?]]|]; auto.
      apply positive_counter_incr. exact Hh.
    + destruct (Re.search1 Pat.from_addr line); auto.
      apply positive_counter_incr. exact Hs.
    + destruct (Re.search1 Pat.from_addr line); [rewrite counter_total_incr|]; lia.
    + lia.
    + lia.
  - destruct (PyStr.contains "status=deferred" line); [cbn; auto 6|].
    destruct (_ || _); cbn; auto 6.
Qed.

Lemma run_passes_tables_ok cfg fs now ix a :
  run_passes cfg fs now = Ok (ix, a) -> tables_ok a.
Proof.
  apply run_passes_invariant; [exact empty_tables_ok|].
  intros ix' a' line. apply second_pass_step_tables_ok.
Qed.

(** ** Compromised-account candidates *)

Lemma flagged_sender_over_50 total pct (suspicious : gmap string Z) sender :
  In sender (compromised (Qmax 50 (inject_Z total * pct)) suspicious) ->
  exists count, suspicious !! sender = Some count /\ 51 <= count.
Proof.
  intros Hin. apply compromised_spec in Hin.
  destruct Hin as (count & Hlook & Hcount & _). exists count. split; [exact Hlook|].
  pose proof (Q.le_max_l 50 (inject_Z total * pct)) as Hmax.
  assert (Hlt : (inject_Z 50 < inject_Z count)%Q) by (change (inject_Z 50) with 50%Q; lra).
  rewrite <- Zlt_Qlt in Hlt. lia.
Qed.

(** X9. A sender is flagged only with 51 sent lines or more, whatever the
    configured fraction: a run that counted 50 sent lines or fewer flags
    no one. *)
Theorem no_candidate_below_51_sent_lines cfg fs st now r :
  main cfg fs st now = Ok r ->
  r_sent_count r <= 50 ->
  r_compromised_candidates r = [].
Proof.
  intros Hmain Hfew.
  destruct (main_inv _ _ _ _ _ Hmain) as (h & ix & a & _ & Hpass & Hsum).
  destruct (run_passes_tables_ok _ _ _ _ _ Hpass) as (_ & Hpos & Htotal & _).
  destruct (summarize_inv _ _ _ _ _ _ _ Hsum) as (_ & _ & Hthr & Hcand).
  destruct (summarize_fields _ _ _ _ _ _ _ Hsum) as (Hsent & _).
  rewrite Hcand.
  destruct (compromised (r_high_volume_threshold r) (suspicious_senders a))
    as [|sender rest] eqn:E; [reflexivity|].
  exfalso.
  assert (Hin : In sender (compromised (r_high_volume_threshold r)
                             (suspicious_senders a)))
    by (rewrite E; left; reflexivity).
  rewrite Hthr in Hin.
  apply flagged_sender_over_50 in Hin. destruct Hin as (count & Hlook & Hcount).
  pose proof (counter_entry_le_total sender count _ Hpos Hlook). lia.
Qed.

Lemma no_candidate_below_51_sent_lines_witness :
  exists r,
    main only_rotated_log first_log_unreadable fresh_store march_10 = Ok r /\
    r_sent_count r = 1 /\ r_compromised_candidates r = [].
Proof.
  destruct (main only_rotated_log first_log_unreadable fresh_store march_10)
    as [r|e] eqn:E; [|vm_compute in E; discriminate].
  assert (Hone : r_sent_count r = 1)
    by (vm_compute in E; injection E as <-; reflexivity).
  exists r. split; [reflexivity|]. split; [exact Hone|].
  apply (no_candidate_below_51_sent_lines only_rotated_log first_log_unreadable
           fresh_store march_10 r E). lia.
Defined.

(** ** The peak/min ratio of the report *)

(** X10. In high-volume mode with more than 100 messages, the report
    divides the busiest hour by the quietest. When no sent line with a
    timestamp was counted, as on a day with deferred and bounced lines
    only, both are 0 and the division raises [ZeroDivisionError]; when
    some hour has traffic the ratio is defined and at least 1. *)
Theorem peak_min_ratio_needs_hourly_traffic cfg fs st now r :
  main cfg fs st now = Ok r ->
  HIGH_VOLUME_MODE cfg = true ->
  100 < r_total_messages r ->
  (r_sent_count r = 0 -> r_max_hourly r = 0) /\
  (r_max_hourly r = 0 -> peak_min_ratio cfg r = Raise ZeroDivisionError) /\
  (r_max_hourly r <> 0 ->
   exists q, peak_min_ratio cfg r = Ok (Some q) /\ (1 <= q)%Q).
Proof.
  intros Hmain Hmode Hmany.
  destruct (main_inv _ _ _ _ _ Hmain) as (h & ix & a & _ & Hpass & Hsum).
  destruct (run_passes_tables_ok _ _ _ _ _ Hpass) as (Hhourly & _ & _ & _ & Hnone).
  destruct (summarize_fields _ _ _ _ _ _ _ Hsum)
    as (Hsent & _ & _ & _ & _ & _ & _ & Hmax & Hmin & _).
  unfold peak_min_ratio. rewrite Hmode.
  replace (100 <? r_total_messages r) with true by (symmetry; apply Z.ltb_lt; lia).
  cbn [andb]. rewrite Hmax, Hmin.
  destruct (counter_min_max (hourly_traffic a) Hhourly)
    as [(Hempty & -> & ->) | (Hnonempty & Hlo & Hhi)].
  - split; [reflexivity|]. split; [reflexivity|]. intros Hne. contradiction.
  - split; [|split].
    + intros Hzero. rewrite Hsent in Hzero. apply Hnone in Hzero. contradiction.
    + intros Hzero. lia.
    + intros _. rewrite truediv_ok by (apply inject_Z_nonzero; lia). cbn [bind].
      eexists. split; [reflexivity|].
      apply Qle_shift_div_l; [rewrite <- (Zlt_Qlt 0); lia|].
      rewrite Qmult_1_l, <- Zle_Qle. exact Hhi.
Qed.

Lemma peak_min_ratio_needs_hourly_traffic_witness :
  exists r,
    main default_config (deferred_log 101) fresh_store march_10 = Ok r /\
    peak_min_ratio default_config r = Raise ZeroDivisionError.
Proof.
  destruct (main default_config (deferred_log 101) fresh_store march_10)
    as [r|e] eqn:E; [|vm_compute in E; discriminate].
  assert (Hr : r_total_messages r = 101 /\ r_sent_count r = 0)
    by (vm_compute in E; injection E as <-; split; reflexivity).
  destruct Hr as [Htotal Hsent].
  destruct (peak_min_ratio_needs_hourly_traffic default_config (deferred_log 101)
              fresh_store march_10 r E eq_refl ltac:(lia)) as (Hnone & Hraise & _).
  exists r. split; [reflexivity|]. apply Hraise, Hnone, Hsent.
Defined.

(** ** Trends and history *)

(** X11. The trends of a run come from the history file as it was loaded:
    the lines of the day and the snapshot the run saves play no part in
    them, and with a missing or corrupt history file there is no trend. *)
Theorem trends_come_from_loaded_history cfg fs st now r :
  main cfg fs st now = Ok r ->
  exists h,
    load_historical_data st = Ok h /\
    calculate_trends h = Ok (r_trends r) /\
    (hfile st = HMissing \/ hfile st = HCorrupt -> r_trends r = ∅).
Proof.
  intros Hmain.
  destruct (main_inv _ _ _ _ _ Hmain) as (h & ix & a & Hload & _ & Hsum).
  destruct (summarize_fields _ _ _ _ _ _ _ Hsum) as (_ & _ & _ & _ & _ & Htr & _).
  exists h. split; [exact Hload|]. split; [exact Htr|].
  intros Hfile. unfold load_historical_data in Hload.
  assert (h = ∅) by (destruct Hfile as [Hf|Hf]; rewrite Hf in Hload; congruence).
  subst h. unfold calculate_trends in Htr. rewrite map_size_empty in Htr.
  cbn in Htr. congruence.
Qed.

Lemma trends_come_from_loaded_history_witness :
  exists r h,
    main default_config no_logs fresh_store march_10 = Ok r /\
    load_historical_data fresh_store = Ok h /\
    calculate_trends h = Ok (r_trends r) /\
    r_trends r = ∅.
Proof.
  destruct (main default_config no_logs fresh_store march_10) as [r|e] eqn:E;
    [|vm_compute in E; discriminate].
  destruct (trends_come_from_loaded_history default_config no_logs fresh_store
              march_10 r E) as (h & Hload & Htr & Hempty).
  exists r, h. repeat split; auto.
Defined.

(** X12. Every division of [calculate_trends] is guarded and its index
    is in range: on a history of numbers it raises neither
    [ZeroDivisionError] nor [IndexError], and the trends it returns are
    trends of the four tracked metrics. *)
Theorem calculate_trends_divisions_are_guarded h :
  calculate_trends h <> Raise ZeroDivisionError /\
  calculate_trends h <> Raise IndexError /\
  forall trends,
    calculate_trends h = Ok trends ->
    forall metric, is_Some (trends !! metric) -> In metric tracked_metrics.
Proof.
  destruct (calculate_trends_total h) as [trends0 Hcalc0].
  split; [congruence|]. split; [congruence|].
  clear trends0 Hcalc0. intros trends.
  unfold calculate_trends.
  destruct (size h <? 2)%nat.
  { intros [= <-] metric [t Ht]. rewrite lookup_empty in Ht. discriminate. }
  destruct (length _ <? 2)%nat.
  { intros [= <-] metric [t Ht]. rewrite lookup_empty in Ht. discriminate. }
  generalize (last_n 8 (sorted_strings (map fst (map_to_list h)))). intros dates.
  assert (Hgen : forall metrics start trends,
    for_each metrics (trend_of_metric h dates) start = Ok trends ->
    forall metric, is_Some (trends !! metric) ->
                   is_Some (start !! metric) \/ In metric metrics).
  { induction metrics as [|m metrics IH]; intros start trends'.
    - cbn [for_each]. intros [= <-]. auto.
    - rewrite for_each_cons.
      destruct (trend_of_metric h dates start m) as [next|] eqn:Estep;
        cbn [bind]; [|discriminate].
      intros Hrest metric Hsome.
      destruct (IH _ _ Hrest metric Hsome) as [Hnext|Hin]; [|right; right; exact Hin].
      revert Estep. unfold trend_of_metric.
      destruct (2 <=? length _)%nat; [|intros [= <-]; auto].
      destruct (truediv _ _); cbn [bind]; [|discriminate].
      match goal with
      | |- context [bind ?x _] => destruct x; cbn [bind]; [|discriminate]
      end.
      destruct (Qltb 0 _); [|intros [= <-]; auto].
      destruct (truediv _ _); cbn [bind]; [|discriminate].
      intros [= <-]. rewrite lookup_insert in Hnext.
      case_decide; [subst; right; left; reflexivity | auto]. }
  intros Hcalc metric Hsome.
  destruct (Hgen _ _ _ Hcalc metric Hsome) as [Hempty|Hin]; [|exact Hin].
  rewrite lookup_empty in Hempty. destruct Hempty as [? ?]. discriminate.
Qed.

(** X13. Every trend [calculate_trends] produces has a positive baseline,
    and its percentage is the change of the recent average against the
    baseline, times 100. *)
Theorem trend_percentage_formula h trends metric t :
  calculate_trends h = Ok trends ->
  trends !! metric = Some t ->
  (0 < baseline_avg t)%Q /\
  percentage t = ((recent_avg t - baseline_avg t) / baseline_avg t * 100)%Q.
Proof.
  intros Hcalc. revert metric t. unfold calculate_trends in Hcalc.
  destruct (size h <? 2)%nat.
  { injection Hcalc as <-. intros m t. rewrite lookup_empty. discriminate. }
  destruct (length _ <? 2)%nat.
  { injection Hcalc as <-. intros m t. rewrite lookup_empty. discriminate. }
  revert Hcalc.
  apply (for_each_invariant
           (fun trends => forall m t, trends !! m = Some t ->
              (0 < baseline_avg t)%Q /\
              percentage t
              = ((recent_avg t - baseline_avg t) / baseline_avg t * 100)%Q)).
  - intros s x s' Hs. unfold trend_of_metric.
    destruct (2 <=? length _)%nat; [|intros [= <-]; exact Hs].
    destruct (truediv _ _) as [recent|]; cbn [bind]; [|discriminate].
    match goal with
    | |- context [bind ?x _] => destruct x as [older|]; cbn [bind]; [|discriminate]
    end.
    destruct (Qltb 0 older) eqn:Epos; [|intros [= <-]; exact Hs].
    apply Qltb_lt in Epos.
    rewrite truediv_ok by (intros Hz; rewrite Hz in Epos; exact (Qlt_irrefl 0 Epos)).
    cbn [bind]. intros [= <-] m t. rewrite lookup_insert.
    case_decide; [|apply Hs].
    intros [= <-]. cbn. split; [exact Epos | reflexivity].
  - intros m t. rewrite lookup_empty. discriminate.
Qed.

Lemma trend_percentage_formula_witness :
  exists trends t,
    calculate_trends two_days = Ok trends /\
    trends !! "sent_count" = Some t /\
    (0 < baseline_avg t)%Q /\
    percentage t = ((recent_avg t - baseline_avg t) / baseline_avg t * 100)%Q.
Proof.
  destruct (calculate_trends two_days) as [trends|e] eqn:Ecalc;
    [|vm_compute in Ecalc; discriminate].
  destruct (trends !! "sent_count") as [t|] eqn:Elook;
    [|vm_compute in Ecalc; injection Ecalc as <-; vm_compute in Elook; discriminate].
  exists trends, t. split; [reflexivity|]. split; [exact Elook|].
  exact (trend_percentage_formula two_days trends "sent_count" t Ecalc Elook).
Defined.

(** ** The history store *)

(** What the pruned history holds at a key. *)
Lemma pruned_history_lookup now h today_stats k :
  pruned_history now h today_stats !! k
  = if String.leb (Date.strftime_Ymd (Date.minus_days 30 now)) k
    then (if String.eqb (Date.strftime_Ymd now) k then Some today_stats else h !! k)
    else None.
Proof.
  unfold pruned_history. apply option_eq. intros v.
  rewrite map_lookup_filter_Some, lookup_insert. cbn [fst].
  destruct (String.leb _ k) eqn:Ekeep.
  - destruct (String.eqb_spec (Date.strftime_Ymd now) k) as [->|Hne].
    + rewrite decide_True by reflexivity. split; [tauto|]. intros Hv. split; [exact Hv|exact I].
    + rewrite decide_False by assumption. split; [tauto|]. intros Hv. split; [exact Hv|exact I].
  - split; [intros [_ []] | discriminate].
Qed.

(** Two dates that [strftime] writes alike are the same date. *)
Lemma strftime_injective (c d : Date.date) :
  well_formed c -> well_formed d ->
  0 <= Date.year c <= 9999 -> 0 <= Date.year d <= 9999 ->
  Date.strftime_Ymd c = Date.strftime_Ymd d -> c = d.
Proof.
  intros Hc Hd Hyc Hyd Hsame.
  destruct (well_formed_key_bounds c Hc) as [Hmc Hdc].
  destruct (well_formed_key_bounds d Hd) as [Hmd Hdd].
  pose proof (strftime_compare c d Hyc Hmc Hdc Hyd Hmd Hdd) as Hcd.
  pose proof (strftime_compare d d Hyd Hmd Hdd Hyd Hmd Hdd) as Hdd'.
  rewrite Hsame, Hdd', Z.compare_refl in Hcd. symmetry in Hcd.
  apply Z.compare_eq_iff in Hcd.
  destruct c, d. unfold key in Hcd. cbn [Date.year Date.month Date.day] in *.
  f_equal; lia.
Qed.

(** X14. Pruning loses no recent day and invents none: an entry of the
    loaded history whose key is the ISO text of a date at most 30 days
    old, other than today, is saved with its value, and every saved entry
    is today's or one of the loaded history, unchanged. *)
Theorem pruning_keeps_recent_days now h today_stats :
  Date.valid now = true -> 1001 <= Date.year now ->
  (forall d stats,
      Date.valid d = true ->
      Date.toordinal now - 30 <= Date.toordinal d ->
      d <> now ->
      h !! Date.strftime_Ymd d = Some stats ->
      pruned_history now h today_stats !! Date.strftime_Ymd d = Some stats) /\
  (forall k stats,
      pruned_history now h today_stats !! k = Some stats ->
      (k = Date.strftime_Ymd now /\ stats = today_stats) \/ h !! k = Some stats).
Proof.
  intros Hnow Hyear.
  destruct (valid_well_formed now Hnow) as [Hwf Hrange].
  destruct (minus_days_spec 30 now Hwf) as (Hord & Hcut & Hcuty).
  split.
  - intros d stats Hd Hrecent Hother Hlook.
    destruct (valid_well_formed d Hd) as [Hdwf Hdrange].
    rewrite pruned_history_lookup.
    replace (String.leb _ (Date.strftime_Ymd d)) with true.
    2:{ symmetry. apply strftime_leb_ordinal; [assumption|assumption|lia|lia|lia]. }
    destruct (String.eqb_spec (Date.strftime_Ymd now) (Date.strftime_Ymd d))
      as [Hsame|_]; [|exact Hlook].
    exfalso. apply Hother. symmetry.
    apply strftime_injective; [assumption | assumption | lia | lia | exact Hsame].
  - intros k stats. rewrite pruned_history_lookup.
    destruct (String.leb _ k); [|discriminate].
    destruct (String.eqb_spec (Date.strftime_Ymd now) k) as [<-|_].
    + intros [= <-]. left. auto.
    + auto.
Qed.

Lemma pruning_keeps_recent_days_witness :
  pruned_history march_10 two_days ∅ !! "2025-03-08"
  = Some (<["sent_count" := 100%Q]> ∅).
Proof.
  apply (proj1 (pruning_keeps_recent_days march_10 two_days ∅ eq_refl ltac:(cbn; lia))
           {| Date.year := 2025; Date.month := 3; Date.day := 8 |}).
  - reflexivity.
  - vm_compute. discriminate.
  - discriminate.
  - reflexivity.
Defined.

(** X15. Saving again on the same day replaces the entry of the day and
    changes nothing else: the history after two saves is the history
    after the second alone. *)
Theorem saving_twice_a_day now h first second :
  pruned_history now (pruned_history now h first) second
  = pruned_history now h second.
Proof.
  apply map_eq. intros k. rewrite !pruned_history_lookup.
  destruct (String.leb _ k); [|reflexivity].
  destruct (String.eqb _ k); reflexivity.
Qed.

(** The report of a run does not depend on what the history write does,
    the store it leaves apart. *)
Lemma summarize_with_store cfg now st st' h ix a r written :
  summarize cfg now st h ix a = Ok r ->
  save_historical_data now h (r_today_stats r) st' = Ok written ->
  summarize cfg now st' h ix a = Ok (set_store written r).
Proof.
  unfold summarize.
  destruct (guarded (negb _) _) as [aq|]; cbn [bind]; [|discriminate].
  destruct (guarded _ (bind (truediv (inject_Z (sent_count a)) _) _))
    as [sr|]; cbn [bind]; [|discriminate].
  destruct (calculate_trends h) as [trends|]; cbn [bind]; [|discriminate].
  destruct (guarded _ (truediv (inject_Z (total_size a)) _))
    as [ams|]; cbn [bind]; [|discriminate].
  destruct (guarded _ (bind (truediv (inject_Z (deferred_count a)) _) _))
    as [dr|]; cbn [bind]; [|discriminate].
  destruct (guarded _ (truediv _ (inject_Z (24 * 60))))
    as [tp|]; cbn [bind]; [|discriminate].
  destruct (save_historical_data _ _ _ st); cbn [bind]; [|discriminate].
  intros [= <-]. cbn [r_today_stats]. intros ->. reflexivity.
Qed.

(** X16. The one failure of the history write that [main] survives is a
    denied one: a run that ends when the write succeeds also ends when
    the write is denied with [PermissionError], with the same report and
    the history file left as it was, and it aborts when the write fails
    in any other way. *)
Theorem history_write_denied_is_not_fatal cfg fs file now r :
  main cfg fs {| hfile := file; hwrite := WriteOk |} now = Ok r ->
  main cfg fs {| hfile := file; hwrite := WriteDenied |} now
  = Ok (set_store {| hfile := file; hwrite := WriteDenied |} r) /\
  main cfg fs {| hfile := file; hwrite := WriteFails |} now = Raise OSError.
Proof.
  assert (Hload : forall w,
    load_historical_data {| hfile := file; hwrite := w |}
    = load_historical_data {| hfile := file; hwrite := WriteOk |}) by reflexivity.
  unfold main. rewrite (Hload WriteDenied), (Hload WriteFails). clear Hload.
  destruct (load_historical_data _) as [h|]; cbn [bind]; [|discriminate].
  destruct (over_sources fs (LOG_PATHS cfg) _ first_pass_step empty_index)
    as [ix|]; cbn [bind]; [|discriminate].
  destruct (over_sources fs (LOG_PATHS cfg) _ (second_pass_step ix) empty_acc)
    as [a|]; cbn [bind]; [|discriminate].
  intros Hsum. split.
  - apply (summarize_with_store _ _ _ _ _ _ _ _ _ Hsum). reflexivity.
  - destruct (summarize_result cfg now {| hfile := file; hwrite := WriteFails |}
                h ix a) as [(-> & _)|(r' & _ & Hok & _)]; [reflexivity|].
    exfalso. apply Hok. reflexivity.
Qed.

Lemma history_write_denied_is_not_fatal_witness :
  exists r,
    main default_config no_logs {| hfile := HMissing; hwrite := WriteOk |} march_10
    = Ok r /\
    main default_config no_logs {| hfile := HMissing; hwrite := WriteDenied |} march_10
    = Ok (set_store {| hfile := HMissing; hwrite := WriteDenied |} r) /\
    main default_config no_logs {| hfile := HMissing; hwrite := WriteFails |} march_10
    = Raise OSError.
Proof.
  destruct (main default_config no_logs {| hfile := HMissing; hwrite := WriteOk |}
              march_10) as [r|e] eqn:E; [|vm_compute in E; discriminate].
  exists r. split; [reflexivity|].
  exact (history_write_denied_is_not_fatal default_config no_logs HMissing
           march_10 r E).
Defined.

(** ** [get_domain] *)

Lemma after_last_has_no_separator (sep : ascii) (s : string) :
  PyStr.contains (String sep "") (PyStr.after_last sep s) = false.
Proof.
  induction s as [|c s IH]; [reflexivity|].
  cbn [PyStr.after_last].
  destruct (Ascii.eqb c sep) eqn:Ec; [exact IH|].
  destruct (PyStr.contains (String sep "") s) eqn:Es; [exact IH|].
  rewrite contains_char_cons, Es, Ascii.eqb_sym, Ec. reflexivity.
Qed.

Lemma after_last_of_append (sep : ascii) (pre tail : string) :
  PyStr.contains (String sep "") tail = false ->
  PyStr.after_last sep (pre ++ String sep tail) = tail.
Proof.
  intros Htail. induction pre as [|c pre IH].
  - change ("" ++ String sep tail) with (String sep tail).
    cbn [PyStr.after_last]. rewrite Ascii.eqb_refl.
    apply after_last_without. exact Htail.
  - change (String c pre ++ String sep tail) with (String c (pre ++ String sep tail)).
    cbn [PyStr.after_last].
    change (String sep tail) with (String sep "" ++ tail) at 2.
    rewrite contains_append, IH. destruct (Ascii.eqb c sep); reflexivity.
Qed.

(** X17. [get_domain] never returns a text with an at sign: it is the part
    of the address after the last one, or [unknown]. For an address made
    of a local part, an at sign and a domain without at sign, it returns
    that domain. *)
Theorem get_domain_is_after_the_last_at :
  (forall email, PyStr.contains "@" (get_domain email) = false) /\
  (forall local domain,
      PyStr.contains "@" domain = false ->
      get_domain (local ++ "@" ++ domain) = domain) /\
  (forall email, PyStr.contains "@" email = false -> get_domain email = "unknown").
Proof.
  split; [|split].
  - intros email. unfold get_domain.
    destruct (String.eqb email "" || negb (PyStr.contains "@" email)); [reflexivity|].
    apply after_last_has_no_separator.
  - intros local domain Hdom. unfold get_domain.
    change ("@" ++ domain) with (String "@" domain).
    assert (Hat : PyStr.contains "@" (local ++ String "@" domain) = true).
    { change (String "@" domain) with ("@" ++ domain). apply contains_append. }
    rewrite Hat.
    replace (String.eqb (local ++ String "@" domain) "") with false.
    + cbn [orb negb]. apply after_last_of_append. exact Hdom.
    + symmetry. apply String.eqb_neq. destruct local; discriminate.
  - intros email Hno. unfold get_domain. rewrite Hno, orb_true_r. reflexivity.
Qed.

(** ** [format_bytes] *)

Ltac format_bytes_case :=
  split; [|split; [|split]];
  [ cbv [unit_scale String.eqb Ascii.eqb Bool.eqb]; field
  | cbn [In]; tauto
  | intros Hunit; first [lra | exfalso; apply Hunit; reflexivity]
  | intros Hunit; first [lra | exfalso; apply Hunit; reflexivity] ].

(** X18. For a size that is not negative, [format_bytes] formats the size
    divided by the power of 1024 of the unit it picks; the number is
    below 1024 unless the unit is TB, and at least 1 unless the unit is
    B. *)
Theorem format_bytes_scales_by_unit (size : Q) :
  (0 <= size)%Q ->
  let (value, unit) := format_bytes size in
  (value * unit_scale unit == size)%Q /\
  In unit ["B"; "KB"; "MB"; "GB"; "TB"] /\
  (unit <> "TB" -> (value < 1024)%Q) /\
  (unit <> "B" -> (1 <= value)%Q).
Proof.
  intros Hsize. unfold format_bytes. cbn [format_bytes_from].
  destruct (Qltb size 1024) eqn:E0;
    [apply Qltb_lt in E0 | apply Qltb_ge in E0].
  { format_bytes_case. }
  destruct (Qltb (size / 1024) 1024) eqn:E1;
    [apply Qltb_lt in E1 | apply Qltb_ge in E1].
  { assert (H1 : (1 <= size / 1024)%Q) by (apply Qle_shift_div_l; lra).
    format_bytes_case. }
  destruct (Qltb (size / 1024 / 1024) 1024) eqn:E2;
    [apply Qltb_lt in E2 | apply Qltb_ge in E2].
  { assert (H1 : (1 <= size / 1024 / 1024)%Q) by (apply Qle_shift_div_l; lra).
    format_bytes_case. }
  destruct (Qltb (size / 1024 / 1024 / 1024) 1024) eqn:E3;
    [apply Qltb_lt in E3 | apply Qltb_ge in E3].
  { assert (H1 : (1 <= size / 1024 / 1024 / 1024)%Q) by (apply Qle_shift_div_l; lra).
    format_bytes_case. }
  assert (H1 : (1 <= size / 1024 / 1024 / 1024 / 1024)%Q)
    by (apply Qle_shift_div_l; lra).
  format_bytes_case.
Qed.

Lemma format_bytes_scales_by_unit_witness :
  let (value, unit) := format_bytes 1536 in
  (value * unit_scale unit == 1536)%Q /\
  In unit ["B"; "KB"; "MB"; "GB"; "TB"] /\
  (unit <> "TB" -> (value < 1024)%Q) /\
  (unit <> "B" -> (1 <= value)%Q).
Proof.
  apply (format_bytes_scales_by_unit 1536). lra.
Defined.

(** ** The error analyses *)

Lemma collect_domain_lookup (errors : list string) (m : gmap string (list string))
    (domain : string) :
  fold_left collect_domain errors m !! domain
  = match List.filter (has_domain domain) errors with
    | [] => m !! domain
    | found => Some (default [] (m !! domain) ++ found)%list
    end.
Proof.
  revert m. induction errors as [|error errors IH]; intros m; [reflexivity|].
  cbn [fold_left List.filter]. rewrite IH. unfold collect_domain, has_domain.
  destruct (Re.search1 ErrPat.to_domain error) as [d|]; [|reflexivity].
  destruct (String.eqb_spec d domain) as [->|Hne].
  - rewrite lookup_insert_eq. cbn [default from_option id].
    destruct (List.filter _ errors) as [|e es]; [reflexivity|].
    rewrite <- app_assoc. reflexivity.
  - rewrite lookup_insert_ne by assumption. reflexivity.
Qed.

(** X19. [analyze_errors_by_domain] files an error line under the domain
    its recipient pattern extracts: a domain is in the summary exactly
    when some line has it, with the number of these lines and the first
    three of them in the order of the log; lines without a recipient
    domain are in no entry. *)
Theorem errors_by_domain_summary (errors : list string) (domain : string) :
  analyze_errors_by_domain errors !! domain
  = match List.filter (has_domain domain) errors with
    | [] => None
    | found => Some (Z.of_nat (length found), take 3 found)
    end.
Proof.
  unfold analyze_errors_by_domain. rewrite lookup_fmap, collect_domain_lookup.
  rewrite lookup_empty. destruct (List.filter _ errors); reflexivity.
Qed.

Lemma collect_host_lookup clients (errors : list string) (m : gmap string Z)
    (hostname : string) :
  fold_left (collect_host clients) errors m !! hostname
  = match List.filter (has_host clients hostname) errors with
    | [] => m !! hostname
    | found => Some (default 0 (m !! hostname) + Z.of_nat (length found))
    end.
Proof.
  revert m. induction errors as [|error errors IH]; intros m; [reflexivity|].
  cbn [fold_left List.filter]. rewrite IH. unfold collect_host, has_host.
  destruct (host_of_error clients error) as [host|]; [|reflexivity].
  destruct (String.eqb_spec host hostname) as [->|Hne].
  - unfold incr. rewrite lookup_insert_eq. cbn [default from_option id].
    destruct (List.filter _ errors) as [|e es]; f_equal; cbn [length]; lia.
  - unfold incr. rewrite lookup_insert_ne by assumption. reflexivity.
Qed.

(** X20. [analyze_errors_by_host] counts an error line under the host its
    identifier pattern leads to: a host is in the result exactly when
    some line leads to it, with the number of these lines. *)
Theorem errors_by_host_counts clients (errors : list string) (hostname : string) :
  analyze_errors_by_host errors clients !! hostname
  = match List.filter (has_host clients hostname) errors with
    | [] => None
    | found => Some (Z.of_nat (length found))
    end.
Proof.
  unfold analyze_errors_by_host. rewrite collect_host_lookup, lookup_empty.
  destruct (List.filter _ errors); reflexivity.
Qed.

(** ** The identifier of an error line *)

Lemma alnum_is_not_colon (c : ascii) :
  PyStr.is_alnum c = true -> Ascii.eqb ":" c = false.
Proof.
  destruct c as [[] [] [] [] [] [] [] []]; intros H; try reflexivity;
    vm_compute in H; discriminate H.
Qed.

Lemma digit_is_alnum (n : Z) : PyStr.is_alnum (Date.digit n) = true.
Proof.
  unfold Date.digit.
  assert (Hn : 0 <= n mod 10 < 10) by (apply Z.mod_pos_bound; lia).
  generalize dependent (n mod 10). intros x Hx.
  assert (Ex : x = 0 \/ x = 1 \/ x = 2 \/ x = 3 \/ x = 4 \/ x = 5 \/ x = 6 \/ x = 7
               \/ x = 8 \/ x = 9) by lia.
  clear Hx. repeat (destruct Ex as [-> | Ex]); try subst x; reflexivity.
Qed.

Lemma id_tail_alnum (c : ascii) (s : string) (k : Re.caps) :
  PyStr.is_alnum c = true -> id_tail (String c s) k = id_tail s (Re.push c k).
Proof.
  intros Hc. unfold id_tail. cbn [Re.star]. rewrite Hc.
  fold id_tail. destruct (id_tail s (Re.push c k)); [reflexivity|].
  cbn [Re.match_here]. rewrite (alnum_is_not_colon c Hc). reflexivity.
Qed.

Lemma id_tail_other (c : ascii) (s : string) (k : Re.caps) :
  PyStr.is_alnum c = false -> Ascii.eqb ":" c = false -> id_tail (String c s) k = None.
Proof.
  intros Hc Hcolon. unfold id_tail. cbn [Re.star Re.match_here].
  rewrite Hc, Hcolon. reflexivity.
Qed.

Lemma id_tail_colon (s : string) (k : Re.caps) :
  id_tail (String ":" s) k = Some (Re.groups (Re.close_group k)).
Proof. reflexivity. Qed.

Lemma rematch_first_id (c : ascii) (s : string) :
  Re.rematch ErrPat.first_id (String c s)
  = if PyStr.is_alnum c then id_tail s (Re.push c (Re.open_group Re.no_caps)) else None.
Proof. reflexivity. Qed.

(** A search that fails at the first character goes on from the next. *)
Lemma search_skip (pat : Re.pattern) (c : ascii) (s : string) :
  Re.rematch pat (String c s) = None ->
  Re.search pat (String c s) = Re.search pat s.
Proof. intros H. cbn [Re.search]. rewrite H. reflexivity. Qed.

Lemma search_found (pat : Re.pattern) (s : string) g :
  Re.rematch pat s = Some g -> Re.search pat s = Some g.
Proof. intros H. destruct s; cbn [Re.search]; rewrite H; reflexivity. Qed.

(** On a run of letters and digits followed by a hyphen the pattern
    fails wherever it starts. *)
Ltac id_fails :=
  rewrite rematch_first_id;
  repeat first
    [ rewrite digit_is_alnum
    | rewrite id_tail_alnum by apply digit_is_alnum
    | rewrite id_tail_other by reflexivity ];
  try reflexivity.

(** The identifier found on a line that starts with an ISO timestamp. *)
Lemma first_id_of_timestamped_line d hour rest :
  Re.search1 ErrPat.first_id
    (Date.strftime_Ymd d ++ "T" ++ Date.pad2 hour ++ ":" ++ rest)
  = Some (Date.pad2 (Date.day d) ++ "T" ++ Date.pad2 hour).
Proof.
  unfold Re.search1.
  unfold Date.strftime_Ymd, Date.pad4, Date.pad2.
  cbv beta iota fix delta [String.append].
  rewrite search_skip by id_fails.
  rewrite search_skip by id_fails.
  rewrite search_skip by id_fails.
  rewrite search_skip by id_fails.
  rewrite search_skip by reflexivity.
  rewrite search_skip by id_fails.
  rewrite search_skip by id_fails.
  rewrite search_skip by reflexivity.
  rewrite (search_found _ _
             [String (Date.digit (Date.day d / 10))
                (String (Date.digit (Date.day d))
                   (String "T" (String (Date.digit (hour / 10))
                                  (String (Date.digit hour) ""))))]).
  - reflexivity.
  - rewrite rematch_first_id, digit_is_alnum.
    rewrite id_tail_alnum by apply digit_is_alnum.
    rewrite id_tail_alnum by reflexivity.
    rewrite id_tail_alnum by apply digit_is_alnum.
    rewrite id_tail_alnum by apply digit_is_alnum.
    rewrite id_tail_colon. reflexivity.
Qed.

(** X21. On an error line that starts with an ISO timestamp, the date, a
    T, the hour and a colon, the identifier [analyze_errors_by_host]
    extracts is the day of the month, the T and the hour, not the queue
    identifier: the line is counted under the host recorded for that
    text, [unknown] when there is none. *)
Theorem host_of_timestamped_error clients d hour rest :
  host_of_error clients
    (Date.strftime_Ymd d ++ "T" ++ Date.pad2 hour ++ ":" ++ rest)
  = Some (default "unknown"
            (clients !! (Date.pad2 (Date.day d) ++ "T" ++ Date.pad2 hour))).
Proof.
  unfold host_of_error. rewrite first_id_of_timestamped_line. reflexivity.
Qed.

(** X22. So for error lines that all start with an ISO timestamp, and
    clients recorded under queue identifiers only, the analysis by host
    has the single entry [unknown]. *)
Theorem timestamped_errors_have_unknown_host clients (stamps : list (Date.date * Z * string)) :
  let line := fun s : Date.date * Z * string =>
    Date.strftime_Ymd (fst (fst s)) ++ "T" ++ Date.pad2 (snd (fst s)) ++ ":" ++ snd s in
  (forall s, In s stamps ->
     clients !! (Date.pad2 (Date.day (fst (fst s))) ++ "T" ++ Date.pad2 (snd (fst s)))
     = None) ->
  stamps <> [] ->
  analyze_errors_by_host (map line stamps) clients
  = {[ "unknown" := Z.of_nat (length stamps) ]}.
Proof.
  intros line Hkeys Hne. apply map_eq. intros host.
  unfold analyze_errors_by_host. rewrite collect_host_lookup, lookup_empty.
  assert (Hall : forall s, In s stamps ->
            host_of_error clients (line s) = Some "unknown").
  { intros s Hs. unfold line, host_of_error.
    rewrite first_id_of_timestamped_line, (Hkeys s Hs). reflexivity. }
  destruct (String.eqb_spec "unknown" host) as [<-|Hother].
  - rewrite lookup_singleton_eq.
    assert (Hfilter : List.filter (has_host clients "unknown") (map line stamps)
                      = map line stamps).
    { clear Hne. induction stamps as [|s stamps IH]; [reflexivity|].
      cbn [map List.filter]. unfold has_host at 1.
      rewrite (Hall s (or_introl eq_refl)). cbn.
      rewrite IH; [reflexivity| |]; intros s' Hs'; [apply Hkeys|apply Hall]; right; exact Hs'. }
    rewrite Hfilter. destruct stamps as [|s stamps]; [contradiction|].
    cbn [map length]. rewrite length_map. reflexivity.
  - rewrite lookup_singleton_ne by assumption.
    assert (Hfilter : List.filter (has_host clients host) (map line stamps) = []).
    { clear Hne. induction stamps as [|s stamps IH]; [reflexivity|].
      cbn [map List.filter]. unfold has_host at 1.
      rewrite (Hall s (or_introl eq_refl)).
      replace (String.eqb "unknown" host) with false
        by (symmetry; apply String.eqb_neq; exact Hother).
      apply IH; intros s' Hs'; [apply Hkeys|apply Hall]; right; exact Hs'. }
    rewrite Hfilter. reflexivity.
Qed.

Lemma timestamped_errors_have_unknown_host_witness :
  analyze_errors_by_host [deferred_line] {[ "AAA2" := "host1" ]}
  = {[ "unknown" := 1 ]}.
Proof.
  apply (timestamped_errors_have_unknown_host {[ "AAA2" := "host1" ]}
           [(march_10, 9, error_line_tail)]).
  - intros s [<-|[]]. reflexivity.
  - discriminate.
Defined.

(** ** The first pass *)

(** X23. After the first pass every host recorded for a queue identifier
    has an entry in the table of sending hosts, and every entry of that
    table counts at least one line. *)
Theorem recorded_hosts_are_counted (lines : list string) :
  let ix := fold_left first_pass_step lines empty_index in
  positive_counter (sending_hosts ix) /\
  forall message_id hostname,
    message_clients ix !! message_id = Some hostname ->
    exists n, sending_hosts ix !! hostname = Some n /\ 1 <= n.
Proof.
  cbn zeta.
  assert (Hinv : positive_counter
                   (sending_hosts (fold_left first_pass_step lines empty_index)) /\
                 forall message_id hostname,
                   message_clients (fold_left first_pass_step lines empty_index)
                     !! message_id = Some hostname ->
                   is_Some (sending_hosts (fold_left first_pass_step lines empty_index)
                              !! hostname)).
  { apply (fold_left_invariant
             (fun ix => positive_counter (sending_hosts ix) /\
                        forall message_id hostname,
                          message_clients ix !! message_id = Some hostname ->
                          is_Some (sending_hosts ix !! hostname))).
    - intros ix line [Hpos Hrec]. unfold first_pass_step.
      cbn [sending_hosts message_clients].
      set (clients1 := match Re.search Pat.client line with
                       | Some (message_id :: hostname :: _) =>
                           <[message_id := hostname]> (message_clients ix)
                       | _ => message_clients ix
                       end).
      set (hosts1 := match Re.search Pat.client line with
                     | Some (_ :: hostname :: _) => incr hostname (sending_hosts ix)
                     | _ => sending_hosts ix
                     end).
      assert (H1 : positive_counter hosts1 /\
                   forall message_id hostname,
                     clients1 !! message_id = Some hostname ->
                     is_Some (hosts1 !! hostname)).
      { subst clients1 hosts1.
        destruct (Re.search Pat.client line) as [[|id [|host ?]]|]; auto.
        split; [apply positive_counter_incr; exact Hpos|].
        intros message_id hostname. rewrite lookup_insert. unfold incr.
        case_decide.
        - intros [= <-]. rewrite lookup_insert_eq. eauto.
        - intros Hold. rewrite lookup_insert. case_decide; eauto. }
      destruct H1 as [Hpos1 Hrec1].
      destruct (Re.search1 Pat.pickup line) as [id|]; [|auto].
      split; [apply positive_counter_incr; exact Hpos1|].
      intros message_id hostname. rewrite lookup_insert. unfold incr.
      case_decide.
      + intros [= <-]. rewrite lookup_insert_eq. eauto.
      + intros Hold. rewrite lookup_insert. case_decide; eauto.
    - cbn. split; [apply positive_counter_empty|].
      intros message_id hostname. rewrite lookup_empty. discriminate. }
  destruct Hinv as [Hpos Hrec]. split; [exact Hpos|].
  intros message_id hostname Hlook.
  destruct (Hrec _ _ Hlook) as [n Hn]. exists n. split; [exact Hn|].
  exact (Hpos hostname n Hn).
Qed.

(** X24. The first pass counts every line with an authentication-failure
    marker once, under its user when one is parsed and under [unknown]
    otherwise: the table of failures adds up to the number of these
    lines. *)
Theorem auth_failures_count_marked_lines (lines : list string) :
  counter_total (auth_failures (fold_left first_pass_step lines empty_index))
  = Z.of_nat (length (List.filter is_auth_failure lines)).
Proof.
  assert (Hgen : forall ix,
    counter_total (auth_failures (fold_left first_pass_step lines ix))
    = counter_total (auth_failures ix)
      + Z.of_nat (length (List.filter is_auth_failure lines))).
  { induction lines as [|line lines IH]; intros ix; cbn [fold_left List.filter].
    - cbn. lia.
    - rewrite IH. unfold first_pass_step. cbn [auth_failures].
      unfold is_auth_failure.
      destruct (_ || _); [|lia].
      cbn [length].
      destruct (Re.search1 Pat.auth_user line); rewrite counter_total_incr; lia. }
  rewrite Hgen. cbn [auth_failures empty_index]. rewrite counter_total_empty. lia.
Qed.

(** ** Delays *)

(** X25. A mail loop is reported for a sent line with a parsed delay only,
    one at most for each: there are no more loop entries than recorded
    delays, and no more delays than sent lines. *)
Theorem mail_loops_at_most_one_per_delay ix (lines : list string) :
  let a := fold_left (second_pass_step ix) lines empty_acc in
  (length (mail_loops a) <= length (queue_times a))%nat /\
  Z.of_nat (length (queue_times a)) <= sent_count a.
Proof.
  cbn zeta.
  apply (fold_left_invariant
           (fun a => (length (mail_loops a) <= length (queue_times a))%nat /\
                     Z.of_nat (length (queue_times a)) <= sent_count a)).
  - intros a line [Hloops Hdelays]. unfold second_pass_step.
    destruct (PyStr.contains " status=sent " line).
    + cbn [mail_loops queue_times sent_count].
      destruct (Re.search1 Pat.delay line) as [d|]; [|split; lia].
      rewrite !length_app.
      assert (Hone : (length (detect_mail_loop (PyStr.float_of d)
                                (Re.search1 Pat.from_addr line)
                                (Re.search1 Pat.to_addr line)) <= 1)%nat).
      { unfold detect_mail_loop.
        destruct (Re.search1 Pat.from_addr line), (Re.search1 Pat.to_addr line);
          cbn; try lia.
        destruct (Qltb _ _); [|cbn; lia].
        destruct (String.eqb _ _); [cbn; lia|].
        destruct (_ && _); cbn; lia. }
      cbn [length]. split; lia.
    + destruct (PyStr.contains "status=deferred" line); [cbn; auto|].
      destruct (_ || _); cbn; auto.
  - cbn. split; lia.
Qed.

(** ** What the second pass takes from the first *)





(** The host a recipient is filed under does come from the first pass:
    after the client line the sent line is filed under [host1], and
    without it under [unknown]. *)
Example recipient_hosts_read_the_clients :
  let ix := fold_left first_pass_step [client_line] empty_index in
  recipient_hosts (second_pass_step ix empty_acc sent_line)
  = {[ "b@y.org" := {[ "host1" := 1 ]} ]} /\
  recipient_hosts (second_pass_step empty_index empty_acc sent_line)
  = {[ "b@y.org" := {[ "unknown" := 1 ]} ]}.
Proof. vm_compute. split; reflexivity. Qed.

